(** * Selection-and-hedging decision engine: a shallow embedding

    The JavaScript sources are embedded function by function.  JS numbers
    are idealised: quantities, prices and ROI values are exact rationals
    ([Q]); the two target-ROI curves, which use [Math.exp], [Math.sqrt] and
    [Math.log], are real-valued ([R]).  Network calls and [Math.random] are
    oracles passed as arguments; [Date.now()] is a parameter.
    String-valued enums (['PUT'/'CALL'], ['NONE'/'STEP1'/'FULL']) are
    inductive types. *)

From Stdlib Require Import ZArith QArith Qround Qminmax Qabs Reals Psatz Bool.
From Stdlib Require Import String Ascii Sorted Permutation.
From stdpp Require Import base option list strings pretty gmap.

(* ===================================================================== *)
(** * Part I. The embedding                                               *)
(* ===================================================================== *)

(** ** src/hedge/precisionHandling.js *)

Module Precision.

(** A finite JS number given by its shortest decimal form
    [mantissa * 10 ^ exponent], which is what [Number.prototype.toString]
    prints from. *)
Record JsNumber := mkJsNumber { mantissa : Z; exponent : Z }.


(** Trailing zeros of the mantissa are moved into the exponent, so that the
    digit string is as short as possible. *)
Fixpoint stripZeros (fuel : nat) (m e : Z) : Z * Z :=
  match fuel with
  | O => (m, e)
  | S fuel' =>
      if negb (m =? 0)%Z && (m mod 10 =? 0)%Z
      then stripZeros fuel' (m / 10)%Z (e + 1)%Z
      else (m, e)
  end.

Fixpoint digitsAux (fuel : nat) (n : Z) : nat :=
  match fuel with
  | O => 1%nat
  | S fuel' => if (n <? 10)%Z then 1%nat else S (digitsAux fuel' (n / 10)%Z)
  end.

(** Number of decimal digits of [|n|]. *)
Definition numDigits (n : Z) : nat :=
  digitsAux (Z.to_nat (Z.log2 (Z.abs n))) (Z.abs n).

Definition normalise (v : JsNumber) : Z * Z :=
  stripZeros (Z.to_nat (Z.log2 (Z.abs (mantissa v))) + 1) (mantissa v) (exponent v).

(** [countDecimals]: 0 for an integer; otherwise the length of what follows
    the ['.'] in [value.toString()].  With [k] digits and the decimal point
    after digit [n] (ECMAScript Number::toString), the text is positional for
    [-6 < n <= 21] and has [- exponent] decimals; outside that range it is
    in exponent notation, ["d.ddde-N"], whose part after the ['.'] also
    holds the ['e'], the sign and the exponent digits, or ["de-N"] with no
    ['.'] at all, where [split(".")[1]] is undefined and the result is 0. *)
Definition countDecimals (value : JsNumber) : nat :=
  let '(s, e) := normalise value in
  if (s =? 0)%Z || (0 <=? e)%Z then 0%nat
  else
    let k := numDigits s in
    let n := (e + Z.of_nat k)%Z in
    if (-6 <? n)%Z && (n <=? 21)%Z then Z.to_nat (- e)
    else if (k =? 1)%nat then 0%nat
    else (k - 1 + 2 + numDigits (n - 1))%nat.

(** [adjustQuantityToLotSize]: the JS function returns the string
    [floored.toFixed(stepSizeDecimals)]; [floored] has at most that many
    decimals, so the string denotes [floored], which is what is returned
    here. *)
Definition adjustQuantityToLotSize (quantity : Q) (stepSize : JsNumber) : Q :=
  let stepSizeDecimals := countDecimals stepSize in
  let factor := inject_Z (10 ^ Z.of_nat stepSizeDecimals)%Z in
  let floored := (inject_Z (Qfloor (quantity * factor)) / factor)%Q in
  floored.

End Precision.

(** ** Option types and break-even (src/hedge/strategiesV2.js, src/helpers/algoV2.js) *)

Inductive OptionType := PUT | CALL.

Definition OptionType_eqb (a b : OptionType) : bool :=
  match a, b with
  | PUT, PUT | CALL, CALL => true
  | _, _ => false
  end.

Module BaseStrategy.

(** [strike * (1 + (optionType === 'CALL' ? roiDecimal : -roiDecimal))] *)
Definition calculateBreakEven (strike roiDecimal : Q) (optionType : OptionType) : Q :=
  (strike * (1 + (if OptionType_eqb optionType CALL then roiDecimal else - roiDecimal)))%Q.

End BaseStrategy.

Module AlgoV2.


Definition computeBufferPct (breakEven spot : Q) : Q :=
  (((breakEven - spot) / spot) * 100)%Q.

End AlgoV2.


(** ** src/hedge/precisionHandling.js, continued *)

Module PrecisionPrice.
Import Precision.

(** [x.toFixed(f)]: the multiple of [10^-f] nearest to [x]; of two equally
    near ones the one larger in magnitude (the sign is split off first). *)
Definition toFixed (x : Q) (f : nat) : Q :=
  let scale := inject_Z (10 ^ Z.of_nat f)%Z in
  if Qle_bool 0 x
  then (inject_Z (Qfloor (x * scale + (1 # 2))) / scale)%Q
  else (- (inject_Z (Qfloor (- x * scale + (1 # 2))) / scale))%Q.

(** [Number(price).toFixed(tickSizeDecimals)] *)
Definition adjustPriceToTickSize (price : Q) (tickSize : JsNumber) : Q :=
  let tickSizeDecimals := countDecimals tickSize in
  toFixed price tickSizeDecimals.

End PrecisionPrice.

(** ** src/config.js *)

Module Config.


Module HEDGE_SAFETY.

Definition BREACH_CONFIRMATION_MINUTES : Q := 5.

(** [Math.min(minRoi + increment, 0.07)] with
    [increment = Math.max(0, daysToExpiry - 2) * 0.001]. *)
Definition getMinRoiForExpiry (daysToExpiry : Q) : Q :=
  let minRoi := (75 # 10000)%Q in
  let increment := (Qmax 0 (daysToExpiry - 2) * (1 # 1000))%Q in
  Qmin (minRoi + increment) (7 # 100).

End HEDGE_SAFETY.

Module ROI_STRATEGIES.







End ROI_STRATEGIES.

End Config.

(** ** src/config.js, continued *)

Module ConfigMore.

Module RISK_BUFFER_CONFIG.

Record t := mk { baseBuffer : Q; dailyIncrement : Q; maxBuffer : Q }.

Definition config : t := mk 3 (25 # 100) 8.

(** [Math.min(this.baseBuffer + Math.max(0, daysToExpiry - 2) * this.dailyIncrement,
    this.maxBuffer)] *)
Definition calculateBuffer (this : t) (daysToExpiry : Q) : Q :=
  let buffer := (baseBuffer this + Qmax 0 (daysToExpiry - 2) * dailyIncrement this)%Q in
  Qmin buffer (maxBuffer this).

End RISK_BUFFER_CONFIG.

Module RISK_MANAGEMENT.

Definition calculateMinimumROI (daysToExpiry : Q) : Q :=
  let baseROI := (75 # 10000)%Q in
  let increment := (Qmax 0 (daysToExpiry - 2) * (1 # 1000))%Q in
  Qmin (baseROI + increment) (7 # 100).

End RISK_MANAGEMENT.

Module ALLOCATION_ALGORITHMS.

Record Allocation := mkAllocation {
  putAllocation : Q;
  callAllocation : Q;
  totalAllocation : Q
}.

Definition calculateAllocation (putCallBalance investmentAmount : Q) : Allocation :=
  let putAllocation :=
    if Qle_bool 0 putCallBalance then investmentAmount
    else (investmentAmount * (1 + putCallBalance))%Q in
  let callScale := if Qle_bool 0 putCallBalance then (1 - putCallBalance)%Q else 1%Q in
  let callAllocation := (investmentAmount * callScale)%Q in
  mkAllocation putAllocation callAllocation (putAllocation + callAllocation)%Q.

End ALLOCATION_ALGORITHMS.

Definition INVESTMENT_AMOUNT : Q := 10000.
Definition ALLOCATION_FRACTION : Q := 1 # 10.
Definition PUT_CALL_BALANCE : Q := - (1 # 2).

End ConfigMore.

(** ** Hedge status (src/hedge/strategiesV2.js, [HEDGE_STATUS]) *)

Inductive HedgeStatus := NONE | STEP1 | FULL.

(** Position of a status in the escalation order NONE, STEP1, FULL. *)
Definition statusRank (s : HedgeStatus) : nat :=
  match s with
  | NONE => 0
  | STEP1 => 1
  | FULL => 2
  end.

Inductive Side := BUY | SELL.

(** A position object as the hedge code reads it.  [symbol], [amount],
    [timeToSettle] and [createdAt] may be undefined. *)
Record Position := mkPosition {
  id : string;
  symbol : option string;
  exercisedCoin : string;
  investCoin : string;
  optionType : OptionType;
  strikePrice : Q;
  subscriptionAmount : Q;
  amount : option Q;
  roi : Q;
  hoursToExpiry : Q;
  timeToSettle : option Q;
  hedgeStatus : HedgeStatus;
  createdAt : option string
}.

Definition setHedgeStatus (p : Position) (s : HedgeStatus) : Position :=
  mkPosition (id p) (symbol p) (exercisedCoin p) (investCoin p) (optionType p)
    (strikePrice p) (subscriptionAmount p) (amount p) (roi p) (hoursToExpiry p)
    (timeToSettle p) s (createdAt p).

(** One entry of the ledger file log/positions.log. *)
Record LedgerEntry := mkLedgerEntry {
  le_id : string;
  le_symbol : string;
  le_optionType : OptionType;
  le_strikePrice : Q;
  le_amount : option Q;
  le_roi : Q;
  le_timeToSettle : option Q;
  le_hedgeStatus : HedgeStatus;
  le_createdAt : string;
  le_lastUpdated : string
}.

Record ApiConfig := mkApiConfig {
  BINANCE_API_KEY : option string;
  BINANCE_API_SECRET : option string
}.

(** JS truthiness of an optional string: defined and not empty. *)
Definition truthyString (s : option string) : bool :=
  match s with
  | Some (String _ _) => true
  | _ => false
  end.

(** [a || b] on numbers: [a] when it is not zero. *)
Definition numberOr (a : Q) (b : option Q) : option Q :=
  if Qeq_bool a 0 then b else Some a.

(** ** src/sharedState.js *)

Module SharedState.

(** [positionsFile] is the content of log/positions.log as [JSON.parse]
    sees it; [None] when the file cannot be read or parsed.  The two
    timestamps are in milliseconds, 0 standing for the initial null (which
    is what null counts as in [Date.now() - lastUpdated]). *)
Record t := mk {
  positions : list Position;
  lastUpdated : Z;
  hedgeStatuses : gmap string HedgeStatus;
  positionsFile : option (gmap string LedgerEntry);
  config : option ApiConfig;
  spotBalances : gmap string Q;
  balancesLastUpdated : Z
}.

Definition getHedgeStatus (this : t) (positionId : string) : HedgeStatus :=
  default NONE (hedgeStatuses this !! positionId).

Definition isFullyHedged (this : t) (positionId : string) : bool :=
  match getHedgeStatus this positionId with FULL => true | _ => false end.

Definition isPartiallyHedged (this : t) (positionId : string) : bool :=
  match getHedgeStatus this positionId with STEP1 | FULL => true | NONE => false end.

Definition isHedged (this : t) (positionId : string) : bool :=
  isPartiallyHedged this positionId.

(** [loadHedgeStatus]: when the file is readable the map is cleared and
    refilled from it; otherwise the map is left as it is. *)
Definition loadHedgeStatus (this : t) : t :=
  match positionsFile this with
  | Some file =>
      mk (positions this) (lastUpdated this) (le_hedgeStatus <$> file)
         (positionsFile this) (config this) (spotBalances this)
         (balancesLastUpdated this)
  | None => this
  end.

Definition ledgerEntryOf (position : Position) (hedgeStatus : HedgeStatus)
    (now : string) : LedgerEntry :=
  mkLedgerEntry (id position)
    (default (exercisedCoin position +:+ investCoin position) (symbol position))
    (optionType position) (strikePrice position)
    (numberOr (subscriptionAmount position) (amount position))
    (roi position)
    (numberOr (hoursToExpiry position) (timeToSettle position))
    hedgeStatus
    (default now (createdAt position))
    now.

(** [updatePosition(position, hedgeStatus = HEDGE_STATUS.NONE)].  The
    in-memory map is set first; then the file is read (an unreadable file
    counts as the empty object), the entry replaced, and the file written
    back; [writeOk = false] is a failing [fs.writeFile], which is logged
    and otherwise ignored. *)
Definition updatePosition (this : t) (position : Position)
    (hedgeStatus : option HedgeStatus) (now : string) (writeOk : bool) : t :=
  let hedgeStatus := default NONE hedgeStatus in
  let statuses := <[id position := hedgeStatus]> (hedgeStatuses this) in
  let filePositions := default ∅ (positionsFile this) in
  let filePositions' :=
    <[id position := ledgerEntryOf position hedgeStatus now]> filePositions in
  mk (positions this) (lastUpdated this) statuses
     (if writeOk then Some filePositions' else positionsFile this)
     (config this) (spotBalances this) (balancesLastUpdated this).

End SharedState.

(** ** src/hedge/utils.js *)

Module HedgeUtils.

Record Filter := mkFilter { filterType : string; stepSize : Precision.JsNumber }.

Record SymbolInfo := mkSymbolInfo { symbolName : string; filters : list Filter }.

(** What the margin-order endpoint answers with on success. *)
Record OrderResult := mkOrderResult { orderId : Z }.

(** The exchange as seen by one call: the answer of GET /exchangeInfo
    ([None]: the request failed) and of POST /margin/order for a symbol,
    side and quantity ([None]: the request failed or was rejected). *)
Record Exchange := mkExchange {
  exchangeInfo : option (list SymbolInfo);
  postMarginOrder : string -> Side -> Q -> option OrderResult
}.

Definition getSymbolInfo (ex : Exchange) (symbol : string) : option SymbolInfo :=
  match exchangeInfo ex with
  | None => None
  | Some symbols => List.find (fun s => String.eqb (symbolName s) symbol) symbols
  end.

Definition hasCredentials (st : SharedState.t) : bool :=
  match SharedState.config st with
  | None => false
  | Some c => truthyString (BINANCE_API_SECRET c) && truthyString (BINANCE_API_KEY c)
  end.

Definition openCrossMarginPosition (ex : Exchange) (symbol : string) (side : Side)
    (amount : Q) (sharedState : SharedState.t) : option OrderResult :=
  if negb (hasCredentials sharedState) then None
  else
    match getSymbolInfo ex symbol with
    | None => None
    | Some symbolInfo =>
        match List.find (fun f => String.eqb (filterType f) "LOT_SIZE") (filters symbolInfo) with
        | None => None
        | Some lotSizeFilter =>
            let adjustedQuantity :=
              Precision.adjustQuantityToLotSize amount (stepSize lotSizeFilter) in
            postMarginOrder ex symbol side adjustedQuantity
        end
    end.

End HedgeUtils.

(** ** src/hedge/strategiesV2.js and src/hedge/index.js *)

Module DynamicHedgeStrategy.
Import HedgeUtils.

(** What a hedge attempt did: a confirmed margin order, and the ledger
    update that follows it. *)
Inductive Event :=
| EvMarginOrder (positionId : string) (symbol : string) (side : Side) (order : OrderResult)
| EvUpdatePosition (positionId : string) (status : HedgeStatus).

(** The outside world during one hedge attempt. *)
Record World := mkWorld {
  exchange : Exchange;
  now : string;
  writeOk : bool
}.

(** [executeHedge(position, symbol, spotPrice, breakEven, targetHedgeStatus)].
    [position] is a reference to the [i]-th object of
    [sharedState.positions]: the assignment to [position.hedgeStatus] is
    seen through the shared array. *)
Definition executeHedge (w : World) (st : SharedState.t) (i : nat) (symbol : string)
    (spotPrice : option Q) (breakEven : Q) (targetHedgeStatus : HedgeStatus)
    : SharedState.t * list Event :=
  match SharedState.positions st !! i with
  | None => (st, [])
  | Some position =>
      let hedgeAmount := (subscriptionAmount position * (1 # 2))%Q in
      let side := if OptionType_eqb (optionType position) PUT then SELL else BUY in
      match openCrossMarginPosition (exchange w) symbol side hedgeAmount st with
      | Some orderResult =>
          let position' := setHedgeStatus position targetHedgeStatus in
          let st1 :=
            SharedState.mk (<[i := position']> (SharedState.positions st))
              (SharedState.lastUpdated st) (SharedState.hedgeStatuses st)
              (SharedState.positionsFile st) (SharedState.config st)
              (SharedState.spotBalances st) (SharedState.balancesLastUpdated st) in
          (SharedState.updatePosition st1 position' (Some targetHedgeStatus)
             (now w) (writeOk w),
           [EvMarginOrder (id position) symbol side orderResult;
            EvUpdatePosition (id position) targetHedgeStatus])
      | None => (st, [])
      end
  end.

(** What one loop iteration of [monitorPositions] draws from outside: the
    fetched spot price, the value of [Math.random()], and the world seen by
    the hedge attempt if there is one. *)
Record Draw := mkDraw {
  spot : option Q;
  random : Q;
  world : World
}.

Fixpoint monitorLoop (draws : nat -> Draw) (st : SharedState.t) (i n : nat)
    : SharedState.t * list Event :=
  match n with
  | O => (st, [])
  | S n' =>
      let d := draws i in
      let '(st1, ev1) :=
        match SharedState.positions st !! i with
        | None => (st, [])
        | Some position =>
            let symbol := exercisedCoin position +:+ investCoin position in
            if Qlt_le_dec (8 # 10) (random d)
            then executeHedge (world d) st i symbol (spot d)
                   (strikePrice position * (105 # 100))%Q STEP1
            else (st, [])
        end in
      let '(st2, ev2) := monitorLoop draws st1 (S i) n' in
      (st2, ev1 ++ ev2)
  end.

(** [monitorPositions(positions)], called on [sharedState.positions]. *)
Definition monitorPositions (draws : nat -> Draw) (st : SharedState.t)
    : SharedState.t * list Event :=
  monitorLoop draws st 0 (length (SharedState.positions st)).

(** [HedgeManager.monitorAndHedge]: nothing is done without positions or
    when the positions are older than five minutes. *)
Definition monitorAndHedge (nowMs : Z) (draws : nat -> Draw) (st : SharedState.t)
    : SharedState.t * list Event :=
  match SharedState.positions st with
  | [] => (st, [])
  | _ =>
      if (5 * 60 * 1000 <? nowMs - SharedState.lastUpdated st)%Z then (st, [])
      else monitorPositions draws st
  end.

(** A sequence of hedge cycles. *)
Fixpoint hedgeCycles (cycles : list (Z * (nat -> Draw))) (st : SharedState.t)
    : SharedState.t * list Event :=
  match cycles with
  | [] => (st, [])
  | (nowMs, draws) :: rest =>
      let '(st1, ev1) := monitorAndHedge nowMs draws st in
      let '(st2, ev2) := hedgeCycles rest st1 in
      (st2, ev1 ++ ev2)
  end.




End DynamicHedgeStrategy.

(** ** Observations on the hedge state *)

Module HedgeObs.
Import DynamicHedgeStrategy.

(** [hedgeStatus] of the [i]-th position object. *)
Definition statusAt (st : SharedState.t) (i : nat) : option HedgeStatus :=
  hedgeStatus <$> SharedState.positions st !! i.


(** The order that [executeHedge] asks for on position [position]. *)
Definition orderFor (w : World) (st : SharedState.t) (position : Position)
    (symbol : string) : option HedgeUtils.OrderResult :=
  HedgeUtils.openCrossMarginPosition (exchange w) symbol
    (if OptionType_eqb (optionType position) PUT then SELL else BUY)
    (subscriptionAmount position * (1 # 2))%Q st.

Definition isMarginOrderFor (positionId : string) (e : Event) : bool :=
  match e with
  | EvMarginOrder pid _ _ _ => String.eqb pid positionId
  | EvUpdatePosition _ _ => false
  end.

Definition isUpdateTo (positionId : string) (status : HedgeStatus) (e : Event) : bool :=
  match e with
  | EvUpdatePosition pid s =>
      String.eqb pid positionId && Nat.eqb (statusRank s) (statusRank status)
  | EvMarginOrder _ _ _ _ => false
  end.

End HedgeObs.

(** ** Sample data *)

Module Samples.
Import HedgeUtils DynamicHedgeStrategy.

Definition btcusdt : SymbolInfo :=
  mkSymbolInfo "BTCUSDT" [mkFilter "PRICE_FILTER" (Precision.mkJsNumber 1 (-2));
                          mkFilter "LOT_SIZE" (Precision.mkJsNumber 1 (-5))].

Definition acceptingExchange : Exchange :=
  mkExchange (Some [btcusdt]) (fun _ _ _ => Some (mkOrderResult 42)).

Definition rejectingExchange : Exchange :=
  mkExchange (Some [btcusdt]) (fun _ _ _ => None).

Definition position1 (status : HedgeStatus) : Position :=
  mkPosition "p1" None "BTC" "USDT" PUT 60000 (2 # 1) None (1 # 100) 48 None status None.

Definition credentials : ApiConfig := mkApiConfig (Some "key"%string) (Some "secret"%string).

Definition stateWith (status : HedgeStatus) : SharedState.t :=
  SharedState.mk [position1 status] 0 {[ "p1"%string := status ]} (Some ∅)
    (Some credentials) ∅ 0.

Definition accepting : World := mkWorld acceptingExchange "2025-06-01T00:00:00.000Z" true.

Definition rejecting : World := mkWorld rejectingExchange "2025-06-01T00:00:00.000Z" true.

(** [Math.random()] returned 0.9: the demo trigger fires. *)
Definition firing (w : World) : nat -> Draw := fun _ => mkDraw (Some 59000%Q) (9 # 10) w.

End Samples.

(** ** Invariants of the hedge state *)

Module HedgeInv.

(** The ledger map has, for every position object, the status the object
    carries. *)
Definition ledgerAgrees (st : SharedState.t) : Prop :=
  forall i p, SharedState.positions st !! i = Some p ->
              SharedState.getHedgeStatus st (id p) = hedgeStatus p.

(** No two position objects have the same id. *)
Definition uniqueIds (st : SharedState.t) : Prop :=
  NoDup (id <$> SharedState.positions st).

(** The status the ledger file has for an id; NONE when the file is
    unreadable or has no entry. *)
Definition fileStatus (st : SharedState.t) (positionId : string) : HedgeStatus :=
  default NONE (le_hedgeStatus <$> default ∅ (SharedState.positionsFile st) !! positionId).

End HedgeInv.

Module HedgeFrame.
Import DynamicHedgeStrategy.

(** From [st] to [st'] nothing but hedge statuses changed, and every
    changed status is [target]. *)
Definition statusOnly (target : HedgeStatus) (st st' : SharedState.t) : Prop :=
  length (SharedState.positions st') = length (SharedState.positions st) /\
  SharedState.config st' = SharedState.config st /\
  SharedState.lastUpdated st' = SharedState.lastUpdated st /\
  SharedState.spotBalances st' = SharedState.spotBalances st /\
  forall i p, SharedState.positions st !! i = Some p ->
              SharedState.positions st' !! i = Some p \/
              SharedState.positions st' !! i = Some (setHedgeStatus p target).

(** A confirmed order and the ledger update that records it. *)
Definition confirmedHedge (target : HedgeStatus)
    (o : string * string * Side * HedgeUtils.OrderResult) : list Event :=
  let '(positionId, symbol, side, order) := o in
  [EvMarginOrder positionId symbol side order; EvUpdatePosition positionId target].

End HedgeFrame.

(** ** src/helpers/collateral.js *)

Module COLLATERAL_CONFIG.

Record CollateralAsset := mkAsset {
  enabled : bool;
  minAmount : Q;
  maxAmount : Q;
  ltv : Q;
  priority : Q
}.

(** [COLLATERAL_CONFIG.assets], in the key order [Object.entries] yields. *)
Definition assets : list (string * CollateralAsset) :=
  [ ("BTC"%string,   mkAsset true (1 # 1000) 10 (75 # 100) 1);
    ("FDUSD"%string, mkAsset true 100 100000 (75 # 100) 2);
    ("USDT"%string,  mkAsset true 100 100000 (75 # 100) 3) ].

End COLLATERAL_CONFIG.

(** ** [borrowCoins] (src/helpers/utils.js) *)

Module Borrow.
Import COLLATERAL_CONFIG.

Definition Entry : Type := string * CollateralAsset.

(** [Array.prototype.sort(compare)] is stable; for a comparator that is a
    consistent ordering of the array's elements its result is the stable
    insertion sort below.  An element goes before the first one it does not
    compare greater than. *)
Fixpoint insertBy (compare : Entry -> Entry -> Q) (x : Entry) (l : list Entry) : list Entry :=
  match l with
  | [] => [x]
  | y :: l' =>
      if Qle_bool (compare x y) 0 then x :: y :: l'
      else y :: insertBy compare x l'
  end.

Definition sortBy (compare : Entry -> Entry -> Q) (l : list Entry) : list Entry :=
  foldr (insertBy compare) [] l.

Definition byPriority (a b : Entry) : Q := (priority (snd a) - priority (snd b))%Q.

(** The comparator used when the borrowed coin is BTC. *)
Definition btcLast (a b : Entry) : Q :=
  if String.eqb (fst a) "BTC" then 1%Q
  else if String.eqb (fst b) "BTC" then (-1)%Q
  else byPriority a b.

(** The comparator used for every other coin. *)
Definition btcFirst (a b : Entry) : Q :=
  if String.eqb (fst a) "BTC" then (-1)%Q
  else if String.eqb (fst b) "BTC" then 1%Q
  else byPriority a b.

(** The candidate list [borrowCoins] walks through. *)
Definition collateralOrder (coin : string) (config : list Entry) : list Entry :=
  let collateralAssets := List.filter (fun e => enabled (snd e)) config in
  if String.eqb coin "BTC" then sortBy btcLast collateralAssets
  else sortBy btcFirst collateralAssets.

Record BorrowParams := mkBorrowParams {
  loanCoin : string;
  loanAmount : Q;
  collateralCoin : string;
  collateralAmount : Q
}.

Record BorrowData := mkBorrowData { borrowId : Z }.

(** The exchange during one [borrowCoins] call.  [step] is the position of
    the candidate being tried, so that answers may change between
    candidates.  [apiSecret = false] is an undefined API secret, on which
    [generateSignature] throws. *)
Record Market := mkMarket {
  fetchCurrentPrice : nat -> string -> option Q;
  postBorrow : nat -> BorrowParams -> option BorrowData;
  apiSecret : bool
}.

Definition isStable (coin : string) : bool :=
  String.eqb coin "USDT" || String.eqb coin "FDUSD".

(** [!price]: null, or zero. *)
Definition falsyPrice (p : option Q) : bool :=
  match p with
  | None => true
  | Some q => Qeq_bool q 0
  end.

(** [x.toFixed(8)]: the nearest multiple of [10^-8], the larger one on a tie. *)
Definition toFixed8 (x : Q) : Q :=
  (inject_Z (Qfloor (x * 100000000 + (1 # 2))) / 100000000)%Q.

(** The [for] loop of [borrowCoins]: the result ([None] is JS null) and the
    borrow requests sent, in order. *)
Fixpoint tryCollaterals (m : Market) (coin : string) (amount : Q) (step : nat)
    (candidates : list Entry) : option BorrowData * list BorrowParams :=
  match candidates with
  | [] => (None, [])
  | (collateralCoin, collateralConfig) :: rest =>
      let isCollateralStable := isStable collateralCoin in
      let isCoinStable := isStable coin in
      let '(currentPrice, collateralPrice) :=
        if isCollateralStable
        then (fetchCurrentPrice m step (coin +:+ collateralCoin), Some 1%Q)
        else if isCoinStable
        then (Some 1%Q, fetchCurrentPrice m step (collateralCoin +:+ coin))
        else (fetchCurrentPrice m step (coin +:+ "USDT"),
              fetchCurrentPrice m step (collateralCoin +:+ "USDT")) in
      if falsyPrice currentPrice || falsyPrice collateralPrice
      then tryCollaterals m coin amount (S step) rest
      else
        let borrowValue := (amount * default 0 currentPrice)%Q in
        let collateralValue := (borrowValue / ltv collateralConfig)%Q in
        let collateralAmount := (collateralValue / default 0 collateralPrice)%Q in
        let params := mkBorrowParams coin amount collateralCoin (toFixed8 collateralAmount) in
        if negb (apiSecret m) then (None, [])
        else
          match postBorrow m step params with
          | Some data => (Some data, [params])
          | None =>
              let '(result, sent) := tryCollaterals m coin amount (S step) rest in
              (result, params :: sent)
          end
  end.

Definition borrowCoins (m : Market) (config : list Entry) (coin : string) (amount : Q)
    : option BorrowData * list BorrowParams :=
  tryCollaterals m coin amount 0 (collateralOrder coin config).

End Borrow.

Module BorrowSamples.
Import Borrow.

(** The ticker knows the pairs the exchange lists and no others. *)
Definition prices : nat -> string -> option Q :=
  fun _ pair =>
    if String.eqb pair "BTCUSDT" then Some 60000%Q
    else if String.eqb pair "BTCFDUSD" then Some 60010%Q
    else if String.eqb pair "FDUSDUSDT" then Some 1%Q
    else None.

(** Every borrow request is rejected. *)
Definition allRejected : Market := mkMarket prices (fun _ _ => None) true.

(** Only a borrow against BTC collateral is accepted. *)
Definition onlyBtcAccepted : Market :=
  mkMarket prices
    (fun _ p => if String.eqb (collateralCoin p) "BTC" then Some (mkBorrowData 7) else None)
    true.

End BorrowSamples.

Module BorrowObs.
Import COLLATERAL_CONFIG Borrow.

Definition isBTC (e : Entry) : bool := String.eqb (fst e) "BTC".

Definition enabledAssets (config : list Entry) : list Entry :=
  List.filter (fun e => enabled (snd e)) config.



Definition priorityLe (a b : Entry) : Prop := (priority (snd a) <= priority (snd b))%Q.

End BorrowObs.

(** ** Products (exchange listing) and src/helpers/algo.js *)

Record Metrics := mkMetrics {
  targetRoi : Q;
  actualRoi : Q;
  breakEven : Q;
  bufferPercent : Q;
  absRatio : Q
}.

Record Product := mkProduct {
  p_id : string;
  p_orderId : string;
  p_optionType : OptionType;
  p_exercisedCoin : string;
  p_investCoin : string;
  p_underlying : string;
  p_settleCoin : string;
  p_settleDate : Z;
  p_strikePrice : Q;
  p_apr : Q;
  p_spotPrice : option Q;
  p_metrics : option Metrics
}.

Definition withSpotPrice (p : Product) (spotPrice : option Q) : Product :=
  mkProduct (p_id p) (p_orderId p) (p_optionType p) (p_exercisedCoin p) (p_investCoin p)
    (p_underlying p) (p_settleCoin p) (p_settleDate p) (p_strikePrice p) (p_apr p)
    spotPrice (p_metrics p).

Definition withMetrics (p : Product) (m : Metrics) : Product :=
  mkProduct (p_id p) (p_orderId p) (p_optionType p) (p_exercisedCoin p) (p_investCoin p)
    (p_underlying p) (p_settleCoin p) (p_settleDate p) (p_strikePrice p) (p_apr p)
    (p_spotPrice p) (Some m).

Module Algo.

(** [products.slice(0, 3).map(...)], whatever [isShortTerm] is. *)
Definition filterAndProcessProducts (products : list Product)
    (activePositions : list Position) (isShortTerm : bool) : list Product :=
  map (fun product =>
         withMetrics product
           (mkMetrics (155 # 10) (182 # 10) (p_strikePrice product * (105 # 100))%Q
              (48 # 10) (21 # 10)))
      (take 3 products).

End Algo.

(** ** src/index.js *)

Module Index.

(** What one cycle gets from outside.  [fetchPositions] is [None] when the
    request failed (the function then returns null). *)
Record World := mkWorld {
  fetchPositions : option (list Position);
  fetchSpotBalances : gmap string Q;
  fetchSpotPrices : option (gmap string Q);
  fetchDualInvestmentProducts : option (list Product);
  nowMs : Z;
  nowIso : string;
  writeOk : bool
}.

Definition snapshotEntry (now : string) (pos : Position) : LedgerEntry :=
  mkLedgerEntry (id pos)
    (default (exercisedCoin pos +:+ investCoin pos) (symbol pos))
    (optionType pos) (strikePrice pos) (numberOr (subscriptionAmount pos) (amount pos))
    (roi pos) (numberOr (hoursToExpiry pos) (timeToSettle pos))
    (hedgeStatus pos) (default now (createdAt pos)) now.

(** [updatePositions]: the exchange's positions, each with the hedge status
    the ledger has for its id, replace [sharedState.positions]; the ledger
    file is rewritten from them.  Of a file entry only [hedgeStatus] is
    ever read back. *)
Definition updatePositions (w : World) (st : SharedState.t) : SharedState.t :=
  let st1 := SharedState.loadHedgeStatus st in
  let positions :=
    map (fun pos => setHedgeStatus pos (SharedState.getHedgeStatus st1 (id pos)))
        (default [] (fetchPositions w)) in
  let positionsMap : gmap string LedgerEntry :=
    foldl (fun m pos => <[id pos := snapshotEntry (nowIso w) pos]> m) ∅ positions in
  SharedState.mk positions (nowMs w) (SharedState.hedgeStatuses st1)
    (if writeOk w then Some positionsMap else SharedState.positionsFile st1)
    (SharedState.config st1) (SharedState.spotBalances st1)
    (SharedState.balancesLastUpdated st1).

Definition updateSpotBalances (w : World) (st : SharedState.t) : SharedState.t :=
  SharedState.mk (SharedState.positions st) (SharedState.lastUpdated st)
    (SharedState.hedgeStatuses st) (SharedState.positionsFile st)
    (SharedState.config st) (fetchSpotBalances w) (nowMs w).

(** [activePositions.length >= config.MAX_TOTAL_POSITIONS] *)
Definition capReached (maxTotalPositions : Q) (activePositions : list Position) : bool :=
  Qle_bool maxTotalPositions (inject_Z (Z.of_nat (length activePositions))).

Inductive ExecutionResult :=
| SkippedMaxPositions
| SpotPricesFailed
| NoProducts
| NoValidSpotPrices
| NoEligibleProducts
| Executed (allProcessed : list Product) (spotBalances : gmap string Q).

Definition truthyPrice (p : option Q) : bool :=
  match p with
  | Some q => negb (Qeq_bool q 0)
  | None => false
  end.

(** [runExecution]; [Executed] stands for the call of [execute]. *)
Definition runExecution (maxTotalPositions : Q) (w : World) (st : SharedState.t)
    : ExecutionResult :=
  let activePositions := SharedState.positions st in
  if capReached maxTotalPositions activePositions then SkippedMaxPositions
  else
    match fetchSpotPrices w with
    | None => SpotPricesFailed
    | Some spotPrices =>
        match fetchDualInvestmentProducts w with
        | None => NoProducts
        | Some products =>
            let products :=
              map (fun product =>
                     let pair :=
                       if OptionType_eqb (p_optionType product) PUT
                       then p_exercisedCoin product +:+ p_investCoin product
                       else p_investCoin product +:+ p_exercisedCoin product in
                     withSpotPrice product (spotPrices !! pair))
                  products in
            let productsWithSpot := List.filter (fun p => truthyPrice (p_spotPrice p)) products in
            match productsWithSpot with
            | [] => NoValidSpotPrices
            | _ =>
                let shortTermProducts :=
                  Algo.filterAndProcessProducts productsWithSpot activePositions true in
                let longTermProducts :=
                  Algo.filterAndProcessProducts productsWithSpot activePositions false in
                let allProcessed := shortTermProducts ++ longTermProducts in
                match allProcessed with
                | [] => NoEligibleProducts
                | _ => Executed allProcessed (SharedState.spotBalances st)
                end
            end
        end
    end.

Inductive StopReason := MaxPositionsReached | MaxHedgedPositionsReached.

(** How a run of [mainLoop] ends: [process.exit(code)], or by returning. *)
Inductive LoopOutcome :=
| ProcessExit (code : Z) (reason : StopReason)
| Returned.

Definition hedgedCount (activePositions : list Position) : nat :=
  length (List.filter (fun pos => negb (Nat.eqb (statusRank (hedgeStatus pos)) 0))
            activePositions).

(** [mainLoop].  The calls of [runExecution] and
    [hedgeManager.monitorAndHedge] at its end are commented out in the
    source, so a run that passes both checks does nothing more. *)
Definition mainLoop (maxTotalPositions : Q) (w : World) (st : SharedState.t)
    : LoopOutcome * SharedState.t :=
  let st := updatePositions w st in
  let st := updateSpotBalances w st in
  let activePositions := SharedState.positions st in
  if capReached maxTotalPositions activePositions
  then (ProcessExit 0 MaxPositionsReached, st)
  else
    let hedgedCount := hedgedCount activePositions in
    let maxHedgedPositions := Qfloor maxTotalPositions in
    if (maxHedgedPositions <=? Z.of_nat hedgedCount)%Z
    then (ProcessExit 0 MaxHedgedPositionsReached, st)
    else (Returned, st).

(** *** The lock around the cron task *)

(** The module-level [cronLock], the application state the task works on,
    the log, and whether [process.exit] has been called. *)
Record Cron := mkCron {
  cronLock : bool;
  shared : SharedState.t;
  logged : list string;
  exited : option Z
}.

(** How an awaited task ends. *)
Inductive TaskEnd :=
| Resolved
| Rejected (message : string)
| Exit (code : Z).

(** A task runs on the whole state: while it is suspended at an [await],
    the scheduler may call [safeRun] again, which a task expresses by
    calling [safeRun] itself. *)
Definition Task : Type := Cron -> TaskEnd * Cron.

Inductive RunResult := Skipped | Ran (e : TaskEnd).

Definition setLock (b : bool) (c : Cron) : Cron :=
  mkCron b (shared c) (logged c) (exited c).

Definition addLog (msg : string) (c : Cron) : Cron :=
  mkCron (cronLock c) (shared c) (logged c ++ [msg]) (exited c).

Definition skipMessage : string := "Skipping overlapping cron run due to active lock".

(** [safeRun(task)].  [process.exit] inside the task ends the process on
    the spot: neither [catch] nor [finally] runs. *)
Definition safeRun (task : Task) (c : Cron) : RunResult * Cron :=
  if cronLock c then (Skipped, addLog skipMessage c)
  else
    let c := setLock true c in
    match task c with
    | (Resolved, c') => (Ran Resolved, setLock false c')
    | (Rejected message, c') =>
        (Ran (Rejected message),
         setLock false (addLog ("Cron task failed: " +:+ message) c'))
    | (Exit code, c') =>
        (Ran (Exit code), mkCron (cronLock c') (shared c') (logged c') (Some code))
    end.

(** [mainLoop] as the cron task. *)
Definition mainLoopTask (maxTotalPositions : Q) (w : World) : Task :=
  fun c =>
    match mainLoop maxTotalPositions w (shared c) with
    | (ProcessExit code _, st) => (Exit code, mkCron (cronLock c) st (logged c) (exited c))
    | (Returned, st) => (Resolved, mkCron (cronLock c) st (logged c) (exited c))
    end.

(** A task during which the scheduler fires once more, on [inner]. *)
Definition withOverlappingTrigger (inner : Task) (outcome : TaskEnd) : Task :=
  fun c => (outcome, snd (safeRun inner c)).

End Index.

Module IndexSamples.
Import Index.

Definition reported (n : nat) (status : HedgeStatus) : Position :=
  mkPosition ("pos" +:+ pretty n) None "BTC" "USDT" PUT 60000 1 None (1 # 100) 48 None
    status None.

(** The exchange reports [n] positions; no request fails. *)
Definition worldWith (n : nat) : World :=
  mkWorld (Some (map (fun k => reported k NONE) (seq 0 n))) ∅ (Some ∅) None
    1000 "2025-06-01T00:00:00.000Z" true.

Definition emptyState : SharedState.t :=
  SharedState.mk [] 0 ∅ None (Some Samples.credentials) ∅ 0.

(** A ledger file in which the first [n] positions are fully hedged. *)
Definition hedgedLedger (n : nat) : gmap string LedgerEntry :=
  foldl (fun m k => <[id (reported k FULL) := snapshotEntry "t" (reported k FULL)]> m)
        ∅ (seq 0 n).

Definition hedgedState (n : nat) : SharedState.t :=
  SharedState.mk [] 0 ∅ (Some (hedgedLedger n)) (Some Samples.credentials) ∅ 0.

Definition idle : Cron := mkCron false emptyState [] None.

End IndexSamples.

(** ** Cron invocations one after the other *)

Module CronSequence.
Import Index.

(** The scheduler fires for each task in turn, each invocation starting
    once the one before has settled. *)
Fixpoint runSequence (tasks : list Task) (c : Cron) : list RunResult * Cron :=
  match tasks with
  | [] => ([], c)
  | task :: rest =>
      let '(r, c1) := safeRun task c in
      let '(rs, c2) := runSequence rest c1 in
      (r :: rs, c2)
  end.

End CronSequence.

(** ** [subscribeToProduct] (src/helpers/utils.js) *)

Module Subscribe.

(** What [axios.post] rejects with: [error.response.data.code],
    [error.response.data.msg] and [error.message]. *)
Record ApiError := mkApiError {
  data_code : option Z;
  data_msg : option string;
  message : string
}.

(** The exchange during one call.  The first argument counts the requests
    already sent by the call, so that answers may change over time.
    [postSubscribe] is [None] when the subscription is accepted;
    [fetchDualProductByMeta] returns the empty list on failure. *)
Record World := mkWorld {
  postSubscribe : nat -> Product -> Q -> option ApiError;
  fetchDualProductByMeta : nat -> OptionType -> string -> string -> list Product
}.

Inductive JsError := ReferenceError (identifier : string).

(** How a call of the async function settles. *)
Inductive Completion :=
| Return (value : bool)
| Throw (error : JsError).

Inductive Effect :=
| PostSubscribe (productId orderId : string)
| FetchByMeta (optionType : OptionType) (exercisedCoin investCoin : string).

(** [haystack.includes(needle)] *)
Fixpoint includes (needle haystack : string) : bool :=
  String.prefix needle haystack ||
  match haystack with
  | EmptyString => false
  | String _ rest => includes needle rest
  end.

(** [code === -9000 && typeof msg === 'string' && msg.includes('APY')],
    with [code = data.code || 'N/A'] and [msg = data.msg || error.message]. *)
Definition isApyRejection (error : ApiError) : bool :=
  let msg :=
    match data_msg error with
    | Some (String a s) => String a s
    | _ => message error
    end in
  match data_code error with
  | Some code => (code =? -9000)%Z && includes "APY" msg
  | None => false
  end.

Definition matches (product p : Product) : bool :=
  String.eqb (p_underlying p) (p_underlying product) &&
  OptionType_eqb (p_optionType p) (p_optionType product) &&
  String.eqb (p_settleCoin p) (p_settleCoin product) &&
  (p_settleDate p =? p_settleDate product)%Z &&
  Qle_bool (p_apr product) (p_apr p).

(** The module scope of src/helpers/utils.js as far as [subscribeToProduct]
    reads it: the binding of the identifier [retriedProducts].  [None]: the
    identifier is not declared, and evaluating it throws a ReferenceError. *)
Definition Scope : Type := option (gset string).

(** utils.js declares [lastLoggedPositions] and nothing else at module
    level; no file of the repository declares [retriedProducts]. *)
Definition moduleScope : Scope := None.

(** [subscribeToProduct(product, amount, config)].  The recursive call on
    the matched product is bounded by [fuel]; [None] is fuel exhaustion.
    The result is the completion, the scope afterwards, and the requests
    sent. *)
Fixpoint subscribeToProduct (fuel : nat) (w : World) (sent : nat) (scope : Scope)
    (product : Product) (amount : Q) : option (Completion * Scope * list Effect) :=
  match fuel with
  | O => None
  | S fuel' =>
      let post := PostSubscribe (p_id product) (p_orderId product) in
      match postSubscribe w sent product amount with
      | None => Some (Return true, scope, [post])
      | Some error =>
          if isApyRejection error then
            match scope with
            | None => Some (Throw (ReferenceError "retriedProducts"), scope, [post])
            | Some retriedProducts =>
                if bool_decide (p_id product ∈ retriedProducts)
                then Some (Return false, scope, [post])
                else
                  let retriedProducts := {[ p_id product ]} ∪ retriedProducts in
                  let fetch := FetchByMeta (p_optionType product)
                                 (p_exercisedCoin product) (p_investCoin product) in
                  let updatedProducts :=
                    fetchDualProductByMeta w (S sent) (p_optionType product)
                      (p_exercisedCoin product) (p_investCoin product) in
                  match List.find (matches product) updatedProducts with
                  | Some matched =>
                      match subscribeToProduct fuel' w (S (S sent)) (Some retriedProducts)
                              matched amount with
                      | Some (completion, scope', effects) =>
                          Some (completion, scope', post :: fetch :: effects)
                      | None => None
                      end
                  | None => Some (Return false, Some retriedProducts, [post; fetch])
                  end
            end
          else Some (Return false, scope, [post])
      end
  end.

End Subscribe.

Module SubscribeSamples.
Import Subscribe.

Definition product1 : Product :=
  mkProduct "1001" "77" PUT "BTC" "USDT" "BTC" "USDT" 1750000000000 60000 (20 # 100)
    (Some 61000%Q) None.

(** The same offer re-listed with a higher APR under a new id. *)
Definition product1' : Product :=
  mkProduct "1002" "78" PUT "BTC" "USDT" "BTC" "USDT" 1750000000000 60000 (21 # 100)
    (Some 61000%Q) None.

Definition staleApy : ApiError :=
  mkApiError (Some (-9000)%Z) (Some "APY has been updated, please retry"%string)
    "Request failed with status code 400".

Definition insufficient : ApiError :=
  mkApiError (Some (-6005)%Z) (Some "Insufficient balance"%string)
    "Request failed with status code 400".

(** The first offer is rejected as stale; the re-listed one is accepted. *)
Definition staleOnce : World :=
  mkWorld (fun _ p _ => if String.eqb (p_id p) "1001" then Some staleApy else None)
          (fun _ _ _ _ => [product1']).

Definition accepted : World := mkWorld (fun _ _ _ => None) (fun _ _ _ _ => []).

Definition refused : World := mkWorld (fun _ _ _ => Some insufficient) (fun _ _ _ _ => []).

(** Every offer is rejected as stale, and each refetch lists a fresh id. *)
Definition alwaysStale : World :=
  mkWorld (fun _ _ _ => Some staleApy)
          (fun n _ _ _ =>
             [mkProduct ("20" +:+ pretty n) "78" PUT "BTC" "USDT" "BTC" "USDT"
                1750000000000 60000 (21 # 100) (Some 61000%Q) None]).

End SubscribeSamples.

Module SubscribeObs.
Import Subscribe.





End SubscribeObs.

(** ** [fetchPositions] and [fetchSpotBalances] (src/helpers/utils.js) *)

Module FetchPositions.

(** A position as the exchange lists it, with its purchase status. *)
Record RawPosition := mkRaw { position : Position; purchaseStatus : string }.

Definition isPurchased (r : RawPosition) : bool :=
  String.eqb (purchaseStatus r) "PURCHASE_SUCCESS".

(** The [while (true)] loop over the pages.  [getPage pageIndex] is the
    list the request for that page answers with, [None] when the request
    throws.  The result is [Some None] when the function returns null,
    [Some (Some l)] when it returns [l], and [None] when [fuel] pages were
    all full, so that the loop is still running. *)
Fixpoint fetchPages (fuel : nat) (getPage : nat -> option (list RawPosition))
    (pageIndex : nat) (allPositions : list RawPosition)
    : option (option (list RawPosition)) :=
  match fuel with
  | O => None
  | S fuel' =>
      match getPage pageIndex with
      | None => Some None
      | Some fetchedPositions =>
          if (length fetchedPositions =? 0)%nat then Some (Some allPositions)
          else
            let activePositions := List.filter isPurchased fetchedPositions in
            let allPositions := allPositions ++ activePositions in
            if (length fetchedPositions <? 100)%nat then Some (Some allPositions)
            else fetchPages fuel' getPage (S pageIndex) allPositions
      end
  end.

(** [fetchPositions(config)].  What it writes to the position-history log,
    and the [lastLoggedPositions] it keeps for that, have no part in the
    result. *)
Definition fetchPositions (fuel : nat) (getPage : nat -> option (list RawPosition))
    : option (option (list RawPosition)) :=
  fetchPages fuel getPage 1 [].

End FetchPositions.

Module FetchSpotBalances.

(** [fetchSpotBalances(config)]: [response] is the [balances] array of the
    account endpoint as (asset, free) pairs, [None] when the request
    fails. *)
Definition fetchSpotBalances (response : option (list (string * Q))) : gmap string Q :=
  match response with
  | None => ∅
  | Some balances =>
      foldl (fun m balance =>
               if Qlt_le_dec 0 (snd balance)
               then <[fst balance := snd balance]> m
               else m)
            ∅ balances
  end.

End FetchSpotBalances.

Module FetchSamples.
Import FetchPositions.

Definition purchased : RawPosition :=
  mkRaw (Samples.position1 NONE) "PURCHASE_SUCCESS".

Definition pending : RawPosition :=
  mkRaw (Samples.position1 NONE) "PURCHASE_PROCESSING".

Definition fullPage : list RawPosition := replicate 99 purchased ++ [pending].

(** A full first page, two entries on the second. *)
Definition twoPages : nat -> option (list RawPosition) :=
  fun pageIndex =>
    match pageIndex with
    | 1 => Some fullPage
    | 2 => Some [pending; purchased]
    | _ => Some []
    end.

(** A full first page; the request for the second fails. *)
Definition secondPageFails : nat -> option (list RawPosition) :=
  fun pageIndex =>
    match pageIndex with
    | 1 => Some fullPage
    | _ => None
    end.

End FetchSamples.

(** ** [execute] (src/helpers/utils.js) *)

Module Execute.

Record AssetConfig := mkAssetConfig {
  active : bool;
  tier : nat;
  decimalPrecision : nat;
  minInvestment : Q
}.

(** The parts of the configuration [execute] reads. *)
Record Config := mkConfig {
  INVESTMENT_AMOUNT : Q;
  ALLOCATION_FRACTION : Q;
  PUT_CALL_BALANCE : Q;
  SUPPORTED_ASSETS : gmap string AssetConfig
}.

(** A value of the [balances] object: a number, or NaN. *)
Inductive Balance := Amount (q : Q) | NaN.

(** [balances[key] -= x]: an absent key reads as undefined, and
    [undefined - x] is NaN. *)
Definition subtract (balances : gmap string Balance) (key : string) (x : Q)
    : gmap string Balance :=
  <[key := match balances !! key with
           | Some (Amount q) => Amount (q - x)%Q
           | _ => NaN
           end]> balances.

(** The outside world, by the position of the product in the list. *)
Record World := mkWorld {
  fetchCurrentPrice : nat -> string -> option Q;
  market : nat -> Borrow.Market;
  exchange : nat -> Subscribe.World
}.

Inductive Effect :=
| EvBorrow (request : Borrow.BorrowParams)
| EvSubscribe (effect : Subscribe.Effect).

(** How the call settles: with the balances, or with the error
    [subscribeToProduct] threw, which nothing in [execute] catches. *)
Inductive Outcome :=
| Completed (balances : gmap string Balance)
| Failed (error : Subscribe.JsError).

(** One iteration of the loop: go on with new balances, or fail. *)
Inductive Step :=
| Continue (balances : gmap string Balance)
| Abort (error : Subscribe.JsError).

Definition isStable (coin : string) : bool :=
  String.eqb coin "USDT" || String.eqb coin "FDUSD".

(** The balance check, the borrow if the balance is short, and the
    subscription, common to the PUT and the CALL branch.  [balanceCoin] is
    the coin whose spot balance is compared, [bookCoin] the key of
    [balances] that a successful subscription is booked on. *)
Definition fundAndSubscribe (fuel : nat) (w : World) (mock : bool)
    (spotBalances : gmap string Q) (i : nat) (product : Product) (needed : Q)
    (balanceCoin bookCoin : string) (balances : gmap string Balance)
    (scope : Subscribe.Scope) : option (Step * Subscribe.Scope * list Effect) :=
  let currentBalance := default 0%Q (spotBalances !! balanceCoin) in
  let '(funded, borrowEffects) :=
    if Qlt_le_dec currentBalance needed
    then
      let '(borrowResult, sent) :=
        Borrow.borrowCoins (market w i) COLLATERAL_CONFIG.assets (p_investCoin product) needed in
      (match borrowResult with Some _ => true | None => false end, map EvBorrow sent)
    else (true, []) in
  if negb funded then Some (Continue balances, scope, borrowEffects)
  else if mock then Some (Continue balances, scope, borrowEffects)
  else
    match Subscribe.subscribeToProduct fuel (exchange w i) 0 scope product needed with
    | None => None
    | Some (Subscribe.Return success, scope', effects) =>
        Some (Continue (if success then subtract balances bookCoin needed else balances),
              scope', borrowEffects ++ map EvSubscribe effects)
    | Some (Subscribe.Throw error, scope', effects) =>
        Some (Abort error, scope', borrowEffects ++ map EvSubscribe effects)
    end.

(** The body of the [for] loop for one product. *)
Definition executeProduct (fuel : nat) (config : Config) (w : World) (mock : bool)
    (spotBalances : gmap string Q) (i : nat) (product : Product)
    (balances : gmap string Balance) (scope : Subscribe.Scope)
    : option (Step * Subscribe.Scope * list Effect) :=
  let totalStablecoinAmount := (INVESTMENT_AMOUNT config * ALLOCATION_FRACTION config)%Q in
  let isInvestCoinStable := isStable (p_investCoin product) in
  let coinConfigKey :=
    if isInvestCoinStable
    then p_exercisedCoin product +:+ p_investCoin product
    else p_investCoin product +:+ p_exercisedCoin product in
  match SUPPORTED_ASSETS config !! coinConfigKey with
  | None => Some (Continue balances, scope, [])
  | Some coinConfig =>
      if negb (active coinConfig) then Some (Continue balances, scope, [])
      else
        let allocation :=
          ConfigMore.ALLOCATION_ALGORITHMS.calculateAllocation
            (PUT_CALL_BALANCE config) totalStablecoinAmount in
        let putAmount := ConfigMore.ALLOCATION_ALGORITHMS.putAllocation allocation in
        let callAmount := ConfigMore.ALLOCATION_ALGORITHMS.callAllocation allocation in
        match p_optionType product with
        | PUT =>
            if Qle_bool 1 putAmount
            then fundAndSubscribe fuel w mock spotBalances i product putAmount
                   (p_investCoin product)
                   (if isInvestCoinStable then p_investCoin product
                    else p_exercisedCoin product)
                   balances scope
            else Some (Continue balances, scope, [])
        | CALL =>
            if Qle_bool 1 callAmount
            then
              let currentPrice := fetchCurrentPrice w i coinConfigKey in
              if Borrow.falsyPrice currentPrice then Some (Continue balances, scope, [])
              else
                let coinAmount :=
                  PrecisionPrice.toFixed (callAmount / default 0 currentPrice)%Q
                    (decimalPrecision coinConfig) in
                let coin :=
                  if isInvestCoinStable then p_exercisedCoin product
                  else p_investCoin product in
                fundAndSubscribe fuel w mock spotBalances i product coinAmount
                  coin coin balances scope
            else Some (Continue balances, scope, [])
        end
  end.

Fixpoint executeLoop (fuel : nat) (config : Config) (w : World) (mock : bool)
    (spotBalances : gmap string Q) (i : nat) (products : list Product)
    (balances : gmap string Balance) (scope : Subscribe.Scope)
    : option (Outcome * Subscribe.Scope * list Effect) :=
  match products with
  | [] => Some (Completed balances, scope, [])
  | product :: rest =>
      match executeProduct fuel config w mock spotBalances i product balances scope with
      | None => None
      | Some (Abort error, scope', effects) => Some (Failed error, scope', effects)
      | Some (Continue balances', scope', effects) =>
          match executeLoop fuel config w mock spotBalances (S i) rest balances' scope' with
          | None => None
          | Some (outcome, scope'', effects') => Some (outcome, scope'', effects ++ effects')
          end
      end
  end.

Definition initialBalances (config : Config) : gmap string Balance :=
  {[ "USDT"%string := Amount (INVESTMENT_AMOUNT config);
     "FDUSD"%string := Amount (INVESTMENT_AMOUNT config) ]}.

(** [execute(processedProducts, config, mock, spotBalances)]; [fuel] bounds
    the retries inside each [subscribeToProduct], [None] is its
    exhaustion. *)
Definition execute (fuel : nat) (config : Config) (w : World) (scope : Subscribe.Scope)
    (processedProducts : list Product) (mock : bool) (spotBalances : gmap string Q)
    : option (Outcome * Subscribe.Scope * list Effect) :=
  executeLoop fuel config w mock spotBalances 0 processedProducts
    (initialBalances config) scope.


End Execute.

Module ExecuteSamples.
Import Execute.

Definition config : Config :=
  mkConfig ConfigMore.INVESTMENT_AMOUNT ConfigMore.ALLOCATION_FRACTION
    ConfigMore.PUT_CALL_BALANCE
    {[ "BTCUSDT"%string := mkAssetConfig true 1 5 100;
       "SOLUSDT"%string := mkAssetConfig false 2 3 25 ]}.

Definition callProduct : Product :=
  mkProduct "3001" "90" CALL "USDT" "BTC" "BTC" "USDT" 1750000000000 65000 (15 # 100)
    (Some 61000%Q) None.

Definition solProduct : Product :=
  mkProduct "4001" "91" PUT "SOL" "USDT" "SOL" "USDT" 1750000000000 150 (30 # 100)
    (Some 160%Q) None.

Definition world (exchange : Subscribe.World) : World :=
  mkWorld (fun _ _ => Some 61000%Q) (fun _ => BorrowSamples.allRejected) (fun _ => exchange).

Definition funded : gmap string Q := {[ "USDT"%string := 5000%Q; "BTC"%string := 1%Q ]}.

End ExecuteSamples.
(* ===================================================================== *)
(** * Part II. Properties                                                 *)
(* ===================================================================== *)

Section PrecisionFacts.
Import Precision.
Local Open Scope Q_scope.

Example countDecimals_0_00001 : countDecimals (mkJsNumber 1 (-5)) = 5%nat.
Proof. reflexivity. Qed.

Example countDecimals_0_00001000 : countDecimals (mkJsNumber 1000 (-8)) = 5%nat.
Proof. reflexivity. Qed.

Example countDecimals_1e_7 : countDecimals (mkJsNumber 1 (-7)) = 0%nat.
Proof. reflexivity. Qed.

Example countDecimals_1_5e_7 : countDecimals (mkJsNumber 15 (-8)) = 4%nat.
Proof. reflexivity. Qed.

Example countDecimals_half : countDecimals (mkJsNumber 5 (-1)) = 1%nat.
Proof. reflexivity. Qed.

Example countDecimals_12_5 : countDecimals (mkJsNumber 125 (-1)) = 1%nat.
Proof. reflexivity. Qed.

Example countDecimals_five : countDecimals (mkJsNumber 5 0) = 0%nat.
Proof. reflexivity. Qed.

Example adjust_example :
  adjustQuantityToLotSize (123456 # 100000) (mkJsNumber 1 (-3)) == 1234 # 1000.
Proof. vm_compute. reflexivity. Qed.

End PrecisionFacts.

Section PrecisionLemmas.
Import Precision.
Local Open Scope Q_scope.

Lemma factor_pos (k : nat) : 0 < inject_Z (10 ^ Z.of_nat k).
Proof.
  replace 0 with (inject_Z 0) by reflexivity.
  rewrite <- Zlt_Qlt. apply Z.pow_pos_nonneg; lia.
Qed.




Lemma countDecimals_pow10 (j : nat) :
  countDecimals (mkJsNumber 1 (- Z.of_nat j)) = if (j <=? 6)%nat then j else 0%nat.
Proof.
  unfold countDecimals, normalise. simpl.
  destruct j as [|j]; [reflexivity |].
  replace (0 <=? - Z.of_nat (S j))%Z with false by (symmetry; apply Z.leb_gt; lia).
  change (numDigits 1) with 1%nat. cbv zeta.
  destruct (Nat.leb_spec (S j) 6) as [Hle | Hgt].
  - replace (-6 <? - Z.of_nat (S j) + Z.of_nat 1)%Z with true
      by (symmetry; apply Z.ltb_lt; lia).
    replace (- Z.of_nat (S j) + Z.of_nat 1 <=? 21)%Z with true
      by (symmetry; apply Z.leb_le; lia).
    simpl andb. cbv iota. rewrite Z.opp_involutive. apply Nat2Z.id.
  - replace (-6 <? - Z.of_nat (S j) + Z.of_nat 1)%Z with false
      by (symmetry; apply Z.ltb_ge; lia).
    reflexivity.
Qed.


End PrecisionLemmas.

Section PrecisionClaims.
Import Precision.
Local Open Scope Q_scope.




End PrecisionClaims.

Section BreakEvenClaims.
Local Open Scope Q_scope.





Example calculateBreakEven_put : BaseStrategy.calculateBreakEven 60000 (1 # 100) PUT == 59400.
Proof. vm_compute. reflexivity. Qed.

Example calculateBreakEven_call : BaseStrategy.calculateBreakEven 60000 (1 # 100) CALL == 60600.
Proof. vm_compute. reflexivity. Qed.

End BreakEvenClaims.

Section PrecisionMore.
Import Precision PrecisionPrice.
Local Open Scope Q_scope.

Example adjustPriceToTickSize_up :
  adjustPriceToTickSize (123456 # 100) (mkJsNumber 1 (-1)) == 12346 # 10.
Proof. vm_compute. reflexivity. Qed.

Example adjustPriceToTickSize_negative :
  adjustPriceToTickSize (- (25 # 100)) (mkJsNumber 1 (-1)) == - (3 # 10).
Proof. vm_compute. reflexivity. Qed.

Lemma factor_nonzero (k : nat) : ~ inject_Z (10 ^ Z.of_nat k) == 0.
Proof. intros E. pose proof (factor_pos k) as H. rewrite E in H. discriminate. Qed.

Lemma half_up_near (y : Q) (k : nat) :
  let F := inject_Z (10 ^ Z.of_nat k) in
  let r := inject_Z (Qfloor (y * F + (1 # 2))) / F in
  r - y <= 1 / (2 * F) /\ y - r < 1 / (2 * F).
Proof.
  intros F r. subst r.
  assert (HF : 0 < F) by apply factor_pos.
  assert (HFne : ~ F == 0) by apply factor_nonzero.
  pose proof (Qfloor_le (y * F + (1 # 2))) as Hlo.
  pose proof (Qlt_floor (y * F + (1 # 2))) as Hhi.
  rewrite inject_Z_plus in Hhi.
  set (n := inject_Z (Qfloor (y * F + (1 # 2)))) in *.
  change (inject_Z 1) with 1 in Hhi.
  assert (E1 : n / F - y == (n - y * F) / F) by (field; exact HFne).
  assert (E2 : y - n / F == (y * F - n) / F) by (field; exact HFne).
  assert (E3 : 1 / (2 * F) == (1 # 2) / F) by (field; exact HFne).
  rewrite E1, E2, E3. unfold Qdiv.
  assert (Hinv : 0 < / F) by (apply Qinv_lt_0_compat; exact HF).
  split.
  - apply Qmult_le_compat_r; [lra | apply Qlt_le_weak; exact Hinv].
  - apply Qmult_lt_compat_r; [exact Hinv | lra].
Qed.

End PrecisionMore.

Section PrecisionExtras.
Import Precision PrecisionPrice.
Local Open Scope Q_scope.

(** X1.  [adjustPriceToTickSize] returns a multiple of [10^-k], [k] the
    number of decimals of the tick size, at most half of [10^-k] away from
    the price, on either side: unlike a quantity, a price may be rounded
    up. *)
Theorem adjustPriceToTickSize_nearest :
  forall (price : Q) (tickSize : JsNumber),
    let k := countDecimals tickSize in
    let r := adjustPriceToTickSize price tickSize in
    - (1 / (2 * inject_Z (10 ^ Z.of_nat k))) <= r - price /\
    r - price <= 1 / (2 * inject_Z (10 ^ Z.of_nat k)) /\
    exists n : Z, r == inject_Z n * (1 / inject_Z (10 ^ Z.of_nat k)).
Proof.
  intros price tickSize k r. subst r. unfold adjustPriceToTickSize, toFixed.
  fold k. set (F := inject_Z (10 ^ Z.of_nat k)).
  assert (HFne : ~ F == 0) by apply factor_nonzero.
  destruct (Qle_bool 0 price).
  - destruct (half_up_near price k) as [Hup Hdown]. fold F in Hup, Hdown.
    split; [lra |]. split; [lra |].
    eexists. unfold Qdiv. rewrite Qmult_1_l. reflexivity.
  - destruct (half_up_near (- price) k) as [Hup Hdown]. fold F in Hup, Hdown.
    split; [lra |]. split; [lra |].
    exists (- Qfloor (- price * F + (1 # 2)))%Z.
    rewrite inject_Z_opp. field. exact HFne.
Qed.



(** X3.  A step size [10^-j] with [j >= 7] prints in exponent notation
    (["1e-7"]), in which [countDecimals] finds no decimals: the quantity is
    then cut down to a whole number. *)
Theorem adjustQuantityToLotSize_tiny_step_truncates_to_integer :
  forall (q : Q) (j : nat),
    (7 <= j)%nat ->
    countDecimals (mkJsNumber 1 (- Z.of_nat j)) = 0%nat /\
    adjustQuantityToLotSize q (mkJsNumber 1 (- Z.of_nat j)) == inject_Z (Qfloor q).
Proof.
  intros q j Hj.
  assert (Hc : countDecimals (mkJsNumber 1 (- Z.of_nat j)) = 0%nat).
  { rewrite countDecimals_pow10.
    destruct (Nat.leb_spec j 6); [lia | reflexivity]. }
  split; [exact Hc |].
  unfold adjustQuantityToLotSize. rewrite Hc.
  change (inject_Z (10 ^ Z.of_nat 0)) with 1.
  rewrite Qmult_1_r. unfold Qdiv. change (/ 1) with 1. apply Qmult_1_r.
Qed.

Lemma adjustQuantityToLotSize_tiny_step_truncates_to_integer_witness :
  adjustQuantityToLotSize (5 # 10) (mkJsNumber 1 (- Z.of_nat 8)) == inject_Z (Qfloor (5 # 10)).
Proof.
  apply (adjustQuantityToLotSize_tiny_step_truncates_to_integer (5 # 10) 8). lia.
Defined.

Lemma normalise_no_trailing_zero (m e : Z) :
  (m mod 10 <> 0)%Z -> normalise (mkJsNumber m e) = (m, e).
Proof.
  intros Hm. unfold normalise. simpl mantissa. simpl exponent.
  rewrite Nat.add_1_r. simpl.
  replace (m mod 10 =? 0)%Z with false by (symmetry; apply Z.eqb_neq; exact Hm).
  rewrite andb_false_r. reflexivity.
Qed.

(** For a number with decimals that prints in positional notation
    (its decimal point lies within [-6 < n <= 21] of the first digit),
    [countDecimals] is the number of digits after the point. *)
Theorem countDecimals_positional :
  forall m e : Z,
    (m mod 10 <> 0)%Z -> (e < 0)%Z ->
    (-6 < e + Z.of_nat (numDigits m) <= 21)%Z ->
    countDecimals (mkJsNumber m e) = Z.to_nat (- e).
Proof.
  intros m e Hm He [Hlo Hhi]. unfold countDecimals.
  rewrite (normalise_no_trailing_zero m e Hm).
  assert (Hm0 : m <> 0%Z) by (intros ->; apply Hm; reflexivity).
  replace (m =? 0)%Z with false by (symmetry; apply Z.eqb_neq; exact Hm0).
  replace (0 <=? e)%Z with false by (symmetry; apply Z.leb_gt; exact He).
  simpl orb. cbv iota zeta.
  replace (-6 <? e + Z.of_nat (numDigits m))%Z with true
    by (symmetry; apply Z.ltb_lt; exact Hlo).
  replace (e + Z.of_nat (numDigits m) <=? 21)%Z with true
    by (symmetry; apply Z.leb_le; exact Hhi).
  reflexivity.
Qed.

Lemma countDecimals_positional_witness :
  countDecimals (mkJsNumber 125 (-4)) = Z.to_nat (- (-4)).
Proof.
  apply countDecimals_positional; [discriminate | lia | vm_compute; split; [reflexivity | discriminate]].
Defined.

End PrecisionExtras.

Section MinRoiFacts.
Import Config.HEDGE_SAFETY.
Local Open Scope Q_scope.

Example getMinRoiForExpiry_2 : getMinRoiForExpiry 2 == 75 # 10000.
Proof. vm_compute. reflexivity. Qed.

Example getMinRoiForExpiry_10 : getMinRoiForExpiry 10 == 155 # 10000.
Proof. vm_compute. reflexivity. Qed.

Example getMinRoiForExpiry_100 : getMinRoiForExpiry 100 == 7 # 100.
Proof. vm_compute. reflexivity. Qed.



End MinRoiFacts.

Section TargetRoiFacts.
Import Config.ROI_STRATEGIES.
Local Open Scope R_scope.









End TargetRoiFacts.

Section RoiCurveClaims.
Import Config.HEDGE_SAFETY Config.ROI_STRATEGIES.









End RoiCurveClaims.

Section ConfigExtras.
Import Config.HEDGE_SAFETY ConfigMore.
Import RISK_BUFFER_CONFIG RISK_MANAGEMENT ALLOCATION_ALGORITHMS.
Local Open Scope Q_scope.

Example calculateBuffer_10 : calculateBuffer config 10 == 5.
Proof. vm_compute. reflexivity. Qed.

Example calculateAllocation_shipped :
  putAllocation (calculateAllocation PUT_CALL_BALANCE 1000) == 500 /\
  callAllocation (calculateAllocation PUT_CALL_BALANCE 1000) == 1000.
Proof. vm_compute. split; reflexivity. Qed.

(** X4.  With a non-negative daily increment and a base not above the
    maximum, [calculateBuffer] stays between the base and the maximum, is
    non-decreasing in the days to expiry, and equals the base up to two
    days. *)
Theorem calculateBuffer_bounds :
  forall (this : RISK_BUFFER_CONFIG.t) (d1 d2 : Q),
    0 <= dailyIncrement this ->
    baseBuffer this <= maxBuffer this ->
    baseBuffer this <= calculateBuffer this d1 /\
    calculateBuffer this d1 <= maxBuffer this /\
    (d1 <= d2 -> calculateBuffer this d1 <= calculateBuffer this d2) /\
    (d1 <= 2 -> calculateBuffer this d1 == baseBuffer this).
Proof.
  intros this d1 d2 Hinc Hbase. unfold calculateBuffer.
  assert (Hmax0 : forall d, 0 <= Qmax 0 (d - 2)) by (intros d; apply Q.le_max_l).
  assert (Hprod : forall d, 0 <= Qmax 0 (d - 2) * dailyIncrement this)
    by (intros d; apply Qmult_le_0_compat; [apply Hmax0 | exact Hinc]).
  split; [apply Q.min_glb; [specialize (Hprod d1); lra | exact Hbase] |].
  split; [apply Q.le_min_r |].
  split.
  - intros Hle. apply Q.min_le_compat_r. apply Qplus_le_r.
    apply Qmult_le_compat_r; [| exact Hinc].
    apply Q.max_le_compat_l. lra.
  - intros Hle. rewrite (Q.max_l 0 (d1 - 2)) by lra.
    rewrite Qmult_0_l, Qplus_0_r. apply Q.min_l. exact Hbase.
Qed.

Lemma calculateBuffer_bounds_witness :
  3 <= calculateBuffer config 1 /\ calculateBuffer config 1 <= 8 /\
  calculateBuffer config 1 <= calculateBuffer config 30 /\
  calculateBuffer config 1 == 3.
Proof.
  destruct (calculateBuffer_bounds config 1 30) as (H1 & H2 & H3 & H4);
    [discriminate | discriminate |].
  split; [exact H1 |]. split; [exact H2 |].
  split; [apply H3; discriminate | apply H4; discriminate].
Defined.

(** X5.  The minimum-ROI floor is 0.75% up to two days, grows by 0.1% a
    day from there, and is 7% from 64.5 days on;
    [RISK_MANAGEMENT.calculateMinimumROI] is the same function. *)
Theorem getMinRoiForExpiry_shape :
  forall d : Q,
    (d <= 2 -> getMinRoiForExpiry d == 75 # 10000) /\
    (2 <= d -> d <= 129 # 2 ->
       getMinRoiForExpiry d == (75 # 10000) + (d - 2) * (1 # 1000)) /\
    (129 # 2 <= d -> getMinRoiForExpiry d == 7 # 100) /\
    calculateMinimumROI d = getMinRoiForExpiry d.
Proof.
  intros d. unfold getMinRoiForExpiry, calculateMinimumROI.
  split; [| split; [| split; [| reflexivity]]].
  - intros H. rewrite (Q.max_l 0 (d - 2)) by lra.
    rewrite Qmult_0_l, Qplus_0_r. apply Q.min_l. discriminate.
  - intros H2 H64. rewrite (Q.max_r 0 (d - 2)) by lra.
    apply Q.min_l. lra.
  - intros H64. rewrite (Q.max_r 0 (d - 2)) by lra.
    apply Q.min_r. lra.
Qed.

Lemma getMinRoiForExpiry_shape_witness :
  getMinRoiForExpiry 1 == 75 # 10000 /\
  getMinRoiForExpiry 10 == (75 # 10000) + (10 - 2) * (1 # 1000) /\
  getMinRoiForExpiry 70 == 7 # 100.
Proof.
  split; [apply (getMinRoiForExpiry_shape 1); discriminate |].
  split; [apply (getMinRoiForExpiry_shape 10); discriminate |].
  apply (getMinRoiForExpiry_shape 70); discriminate.
Defined.

(** X6.  For a PUT/CALL balance in [-1, 1] and a non-negative investment
    amount, both allocations lie between 0 and the amount, one of them is
    the whole amount, and the total is their sum,
    [amount * (2 - |balance|)]. *)
Theorem calculateAllocation_split :
  forall balance amount : Q,
    -1 <= balance -> balance <= 1 -> 0 <= amount ->
    let a := calculateAllocation balance amount in
    0 <= putAllocation a /\ putAllocation a <= amount /\
    0 <= callAllocation a /\ callAllocation a <= amount /\
    (putAllocation a == amount \/ callAllocation a == amount) /\
    totalAllocation a == putAllocation a + callAllocation a /\
    totalAllocation a == amount * (2 - Qabs balance).
Proof.
  intros balance amount Hlo Hhi Hamt a. subst a. unfold calculateAllocation. simpl.
  destruct (Qle_bool 0 balance) eqn:Hb.
  - apply Qle_bool_iff in Hb. rewrite (Qabs_pos balance Hb).
    assert (Hp : 0 <= amount * balance) by (apply Qmult_le_0_compat; assumption).
    assert (Hq : 0 <= amount * (1 - balance)) by (apply Qmult_le_0_compat; lra).
    assert (E : amount * (1 - balance) == amount - amount * balance) by ring.
    repeat split; lra.
  - assert (Hneg : balance < 0).
    { destruct (Qlt_le_dec balance 0) as [H | H]; [exact H |].
      apply Qle_bool_iff in H. congruence. }
    rewrite (Qabs_neg balance) by lra.
    assert (Hp : 0 <= amount * (1 + balance)) by (apply Qmult_le_0_compat; lra).
    assert (Hq : 0 <= amount * (- balance)) by (apply Qmult_le_0_compat; lra).
    assert (E : amount * (1 + balance) == amount - amount * (- balance)) by ring.
    assert (E1 : amount * 1 == amount) by ring.
    repeat split; lra.
Qed.

Lemma calculateAllocation_split_witness :
  putAllocation (calculateAllocation PUT_CALL_BALANCE 1000) <= 1000 /\
  totalAllocation (calculateAllocation PUT_CALL_BALANCE 1000)
    == 1000 * (2 - Qabs PUT_CALL_BALANCE).
Proof.
  destruct (calculateAllocation_split PUT_CALL_BALANCE 1000)
    as (_ & H1 & _ & _ & _ & _ & H2); [discriminate | discriminate | discriminate |].
  split; [exact H1 | exact H2].
Defined.

End ConfigExtras.

Section HedgeFacts.
Import HedgeUtils DynamicHedgeStrategy HedgeObs Samples.

Example executeHedge_accepts :
  statusAt (fst (executeHedge accepting (stateWith NONE) 0 "BTCUSDT" None 0 STEP1)) 0
  = Some STEP1.
Proof. vm_compute. reflexivity. Qed.

Example executeHedge_rejected :
  executeHedge rejecting (stateWith NONE) 0 "BTCUSDT" None 0 STEP1 = (stateWith NONE, []).
Proof. vm_compute. reflexivity. Qed.

Example executeHedge_events :
  snd (executeHedge accepting (stateWith NONE) 0 "BTCUSDT" None 0 STEP1)
  = [EvMarginOrder "p1" "BTCUSDT" SELL (mkOrderResult 42); EvUpdatePosition "p1" STEP1].
Proof. vm_compute. reflexivity. Qed.

End HedgeFacts.

Section HedgeLemmas.
Import HedgeUtils DynamicHedgeStrategy HedgeObs.

Lemma updatePosition_positions st p s t w :
  SharedState.positions (SharedState.updatePosition st p s t w) = SharedState.positions st.
Proof. reflexivity. Qed.

Lemma updatePosition_getHedgeStatus st p s t w :
  SharedState.getHedgeStatus (SharedState.updatePosition st p s t w) (id p)
  = default NONE s.
Proof.
  unfold SharedState.getHedgeStatus, SharedState.updatePosition. simpl.
  by rewrite lookup_insert_eq.
Qed.

Lemma updatePosition_file st p s t :
  exists e, SharedState.positionsFile (SharedState.updatePosition st p s t true)
              = Some e /\
            le_hedgeStatus <$> e !! id p = Some (default NONE s).
Proof.
  eexists. split; [reflexivity |]. by rewrite lookup_insert_eq.
Qed.

(** What [executeHedge] does, by the outcome of the margin order. *)
Lemma executeHedge_failed w st i p symbol spotPrice breakEven target :
  SharedState.positions st !! i = Some p ->
  orderFor w st p symbol = None ->
  executeHedge w st i symbol spotPrice breakEven target = (st, []).
Proof.
  intros Hp Ho. unfold executeHedge. rewrite Hp.
  unfold orderFor in Ho. by rewrite Ho.
Qed.

Lemma executeHedge_confirmed w st i p symbol spotPrice breakEven target r :
  SharedState.positions st !! i = Some p ->
  orderFor w st p symbol = Some r ->
  let '(st', evs) := executeHedge w st i symbol spotPrice breakEven target in
  SharedState.positions st' = <[i := setHedgeStatus p target]> (SharedState.positions st) /\
  SharedState.getHedgeStatus st' (id p) = target /\
  evs = [EvMarginOrder (id p) symbol
           (if OptionType_eqb (optionType p) PUT then SELL else BUY) r;
         EvUpdatePosition (id p) target].
Proof.
  intros Hp Ho. unfold executeHedge. rewrite Hp.
  unfold orderFor in Ho. rewrite Ho.
  split; [reflexivity |]. split; [| reflexivity].
  apply (updatePosition_getHedgeStatus _ (setHedgeStatus p target) (Some target)).
Qed.

Lemma executeHedge_no_position w st i symbol spotPrice breakEven target :
  SharedState.positions st !! i = None ->
  executeHedge w st i symbol spotPrice breakEven target = (st, []).
Proof. intros Hp. unfold executeHedge. by rewrite Hp. Qed.


End HedgeLemmas.

Section HedgeClaims.
Import HedgeUtils DynamicHedgeStrategy HedgeObs Samples.




End HedgeClaims.

Section ExecuteHedgeClaims.
Import HedgeUtils DynamicHedgeStrategy HedgeObs Samples.

(** C2 (amended).  [executeHedge] records the target status (through
    [updatePosition]) if and only if the margin-order call returns a
    non-null order result.  On a null result the state, and with it the
    position's [hedgeStatus] and the ledger, is unchanged and nothing is
    recorded.  On a confirmed order the position object and the ledger map
    hold the target status, and so does the ledger file when the write
    succeeds.  One call places at most one order and makes at most one
    ledger update. *)
Theorem executeHedge_records_iff_order_confirmed :
  forall (w : World) (st : SharedState.t) (i : nat) (p : Position) (symbol : string)
         (spotPrice : option Q) (breakEven : Q) (target : HedgeStatus),
    SharedState.positions st !! i = Some p ->
    let order := orderFor w st p symbol in
    let st' := fst (executeHedge w st i symbol spotPrice breakEven target) in
    let evs := snd (executeHedge w st i symbol spotPrice breakEven target) in
    (In (EvUpdatePosition (id p) target) evs <-> is_Some order) /\
    (order = None -> st' = st /\ evs = []) /\
    (is_Some order ->
       statusAt st' i = Some target /\
       SharedState.getHedgeStatus st' (id p) = target /\
       (writeOk w = true ->
          exists file, SharedState.positionsFile st' = Some file /\
                       le_hedgeStatus <$> file !! id p = Some target)) /\
    length (List.filter (isMarginOrderFor (id p)) evs) <= 1 /\
    length (List.filter (isUpdateTo (id p) target) evs) <= 1.
Proof.
  intros w st i p symbol spotPrice breakEven target Hp order st' evs.
  subst order st' evs.
  destruct (orderFor w st p symbol) as [r |] eqn:Ho.
  - pose proof (executeHedge_confirmed w st i p symbol spotPrice breakEven target r Hp Ho) as H.
    assert (Hfile : writeOk w = true ->
              exists file,
                SharedState.positionsFile
                  (fst (executeHedge w st i symbol spotPrice breakEven target)) = Some file /\
                le_hedgeStatus <$> file !! id p = Some target).
    { intros Hw. unfold executeHedge. rewrite Hp.
      unfold orderFor in Ho. rewrite Ho. simpl. rewrite Hw.
      eexists. split; [reflexivity |]. by rewrite lookup_insert_eq. }
    destruct (executeHedge w st i symbol spotPrice breakEven target) as [st' evs].
    destruct H as (Hpos & Hget & ->). simpl fst in *. simpl snd.
    split; [split; [intros _; by eexists | intros _; simpl; auto] |].
    split; [discriminate |].
    split.
    + intros _. split; [| split; [exact Hget | exact Hfile]].
      unfold statusAt. rewrite Hpos.
      rewrite list_lookup_insert_eq; [reflexivity |].
      apply lookup_lt_Some in Hp. exact Hp.
    + simpl. rewrite String.eqb_refl, Nat.eqb_refl. simpl. lia.
  - rewrite (executeHedge_failed w st i p symbol spotPrice breakEven target Hp Ho).
    simpl.
    split; [split; [intros [] | intros [x Hx]; discriminate] |].
    split; [auto |].
    split; [intros [x Hx]; discriminate | lia].
Qed.

Lemma executeHedge_records_iff_order_confirmed_witness :
  (In (EvUpdatePosition "p1" STEP1)
      (snd (executeHedge accepting (stateWith NONE) 0 "BTCUSDT" None 0 STEP1))
   <-> is_Some (orderFor accepting (stateWith NONE) (position1 NONE) "BTCUSDT")) /\
  (orderFor rejecting (stateWith NONE) (position1 NONE) "BTCUSDT" = None ->
   fst (executeHedge rejecting (stateWith NONE) 0 "BTCUSDT" None 0 STEP1) = stateWith NONE /\
   snd (executeHedge rejecting (stateWith NONE) 0 "BTCUSDT" None 0 STEP1) = []).
Proof.
  split.
  - apply (executeHedge_records_iff_order_confirmed
             accepting (stateWith NONE) 0 (position1 NONE) "BTCUSDT" None 0 STEP1).
    reflexivity.
  - apply (executeHedge_records_iff_order_confirmed
             rejecting (stateWith NONE) 0 (position1 NONE) "BTCUSDT" None 0 STEP1).
    reflexivity.
Defined.

(** C2, as stated, fails in its last part: nothing makes a hedge happen at
    most once for a position and target status.  Two cycles whose demo
    trigger fires place two confirmed orders for position p1 and record
    STEP1 for it twice. *)
Lemma hedge_repeated_for_same_target :
  let run := hedgeCycles [(0%Z, firing accepting); (180000%Z, firing accepting)]
               (stateWith NONE) in
  length (List.filter (isMarginOrderFor "p1") (snd run)) = 2 /\
  length (List.filter (isUpdateTo "p1" STEP1) (snd run)) = 2 /\
  statusAt (fst run) 0 = Some STEP1.
Proof. vm_compute. repeat split; reflexivity. Qed.

End ExecuteHedgeClaims.

Section SharedStateExtras.
Import HedgeInv.

(** X7.  Ledger round trip: after [updatePosition] with a successful file
    write, reloading with [loadHedgeStatus] gives the written status for the
    position's id, and for every other id the status the file had before. *)
Theorem updatePosition_loadHedgeStatus_roundtrip :
  forall (st : SharedState.t) (p : Position) (s : HedgeStatus) (now j : string),
    let st' := SharedState.loadHedgeStatus
                 (SharedState.updatePosition st p (Some s) now true) in
    SharedState.getHedgeStatus st' (id p) = s /\
    (j <> id p -> SharedState.getHedgeStatus st' j = fileStatus st j).
Proof.
  intros st p s now j st'. subst st'.
  unfold SharedState.loadHedgeStatus, SharedState.updatePosition,
    SharedState.getHedgeStatus, fileStatus. simpl.
  split.
  - by rewrite lookup_fmap, lookup_insert_eq.
  - intros Hne. by rewrite lookup_fmap, lookup_insert_ne.
Qed.

Lemma updatePosition_loadHedgeStatus_roundtrip_witness :
  SharedState.getHedgeStatus
    (SharedState.loadHedgeStatus
       (SharedState.updatePosition (Samples.stateWith NONE) (Samples.position1 NONE)
          (Some FULL) "t" true)) "p1" = FULL /\
  SharedState.getHedgeStatus
    (SharedState.loadHedgeStatus
       (SharedState.updatePosition (Samples.stateWith NONE) (Samples.position1 NONE)
          (Some FULL) "t" true)) "p2" = fileStatus (Samples.stateWith NONE) "p2".
Proof.
  destruct (updatePosition_loadHedgeStatus_roundtrip (Samples.stateWith NONE)
              (Samples.position1 NONE) FULL "t" "p2") as [H1 H2].
  split; [exact H1 | apply H2; discriminate].
Defined.

(** X8.  A failed file write is not noticed: the new status is in the
    in-memory map, but the next [loadHedgeStatus] restores what the
    (readable) file says, and the recorded status is gone. *)
Theorem updatePosition_write_failure_lost_on_reload :
  forall (st : SharedState.t) (file : gmap string LedgerEntry) (p : Position)
         (s : HedgeStatus) (now : string),
    SharedState.positionsFile st = Some file ->
    let st' := SharedState.updatePosition st p (Some s) now false in
    SharedState.getHedgeStatus st' (id p) = s /\
    SharedState.positionsFile st' = Some file /\
    SharedState.getHedgeStatus (SharedState.loadHedgeStatus st') (id p)
      = fileStatus st (id p).
Proof.
  intros st file p s now Hfile st'. subst st'.
  unfold SharedState.loadHedgeStatus, SharedState.updatePosition,
    SharedState.getHedgeStatus, fileStatus. simpl. rewrite Hfile. simpl.
  split; [by rewrite lookup_insert_eq |].
  split; [reflexivity |].
  by rewrite lookup_fmap.
Qed.

Lemma updatePosition_write_failure_lost_on_reload_witness :
  SharedState.getHedgeStatus
    (SharedState.updatePosition (Samples.stateWith NONE) (Samples.position1 NONE)
       (Some STEP1) "t" false) "p1" = STEP1 /\
  SharedState.getHedgeStatus
    (SharedState.loadHedgeStatus
       (SharedState.updatePosition (Samples.stateWith NONE) (Samples.position1 NONE)
          (Some STEP1) "t" false)) "p1" = NONE.
Proof.
  destruct (updatePosition_write_failure_lost_on_reload
              (Samples.stateWith NONE) ∅ (Samples.position1 NONE) STEP1 "t" eq_refl)
    as (H1 & _ & H2).
  split; [exact H1 | exact H2].
Defined.

(** X9.  [updatePosition] touches one id only: the status of every other
    id, in the map and in the file, and the position objects are as
    before. *)
Theorem updatePosition_other_ids_untouched :
  forall (st : SharedState.t) (p : Position) (s : option HedgeStatus) (now j : string)
         (writeOk : bool),
    j <> id p ->
    let st' := SharedState.updatePosition st p s now writeOk in
    SharedState.getHedgeStatus st' j = SharedState.getHedgeStatus st j /\
    fileStatus st' j = fileStatus st j /\
    SharedState.positions st' = SharedState.positions st.
Proof.
  intros st p s now j writeOk Hne st'. subst st'.
  unfold SharedState.updatePosition, SharedState.getHedgeStatus, fileStatus. simpl.
  split; [by rewrite lookup_insert_ne |].
  split; [| reflexivity].
  destruct writeOk; [| reflexivity].
  simpl. by rewrite lookup_insert_ne.
Qed.

Lemma updatePosition_other_ids_untouched_witness :
  SharedState.getHedgeStatus
    (SharedState.updatePosition (Samples.stateWith FULL) (Samples.position1 FULL)
       None "t" true) "p2"
  = SharedState.getHedgeStatus (Samples.stateWith FULL) "p2".
Proof.
  apply (updatePosition_other_ids_untouched (Samples.stateWith FULL)
           (Samples.position1 FULL) None "t" "p2" true).
  discriminate.
Defined.

End SharedStateExtras.

Section HedgeStepLemmas.
Import HedgeUtils DynamicHedgeStrategy HedgeObs HedgeInv HedgeFrame.

Lemma openCrossMarginPosition_no_credentials ex symbol side amount st :
  hasCredentials st = false ->
  openCrossMarginPosition ex symbol side amount st = None.
Proof. intros H. unfold openCrossMarginPosition. by rewrite H. Qed.

(** The two ways a call of [executeHedge] can go. *)
Lemma executeHedge_cases w st i symbol spotPrice breakEven target :
  executeHedge w st i symbol spotPrice breakEven target = (st, []) \/
  exists p r,
    SharedState.positions st !! i = Some p /\
    orderFor w st p symbol = Some r /\
    executeHedge w st i symbol spotPrice breakEven target
    = (SharedState.updatePosition
         (SharedState.mk (<[i := setHedgeStatus p target]> (SharedState.positions st))
            (SharedState.lastUpdated st) (SharedState.hedgeStatuses st)
            (SharedState.positionsFile st) (SharedState.config st)
            (SharedState.spotBalances st) (SharedState.balancesLastUpdated st))
         (setHedgeStatus p target) (Some target) (now w) (writeOk w),
       confirmedHedge target
         (id p, symbol, if OptionType_eqb (optionType p) PUT then SELL else BUY, r)).
Proof.
  destruct (SharedState.positions st !! i) as [p |] eqn:Hp.
  - destruct (orderFor w st p symbol) as [r |] eqn:Ho.
    + right. exists p, r. split; [reflexivity |]. split; [exact Ho |].
      unfold executeHedge. rewrite Hp. unfold orderFor in Ho. by rewrite Ho.
    + left. by apply executeHedge_failed with p.
  - left. by apply executeHedge_no_position.
Qed.

Lemma setHedgeStatus_twice p a b : setHedgeStatus (setHedgeStatus p a) b = setHedgeStatus p b.
Proof. reflexivity. Qed.

Lemma statusOnly_refl target st : statusOnly target st st.
Proof. unfold statusOnly. repeat split; auto. Qed.

Lemma statusOnly_trans target st1 st2 st3 :
  statusOnly target st1 st2 -> statusOnly target st2 st3 -> statusOnly target st1 st3.
Proof.
  intros (Hl1 & Hc1 & Hu1 & Hb1 & Hp1) (Hl2 & Hc2 & Hu2 & Hb2 & Hp2).
  unfold statusOnly. repeat split; try congruence.
  intros i p Hp. destruct (Hp1 i p Hp) as [H | H].
  - exact (Hp2 i p H).
  - destruct (Hp2 i _ H) as [H' | H']; [by right |].
    right. by rewrite H', setHedgeStatus_twice.
Qed.

Lemma executeHedge_statusOnly w st i symbol spotPrice breakEven target :
  statusOnly target st (fst (executeHedge w st i symbol spotPrice breakEven target)).
Proof.
  destruct (executeHedge_cases w st i symbol spotPrice breakEven target)
    as [-> | (p & r & Hp & _ & ->)]; [apply statusOnly_refl |].
  unfold statusOnly. simpl. rewrite length_insert.
  repeat split; try reflexivity.
  intros j q Hq. destruct (decide (j = i)) as [-> | Hne].
  - right. rewrite list_lookup_insert_eq by (by apply lookup_lt_Some in Hp). congruence.
  - left. by rewrite list_lookup_insert_ne.
Qed.

Lemma executeHedge_events_shape w st i symbol spotPrice breakEven target :
  snd (executeHedge w st i symbol spotPrice breakEven target) = [] \/
  exists o, snd (executeHedge w st i symbol spotPrice breakEven target)
            = confirmedHedge target o.
Proof.
  destruct (executeHedge_cases w st i symbol spotPrice breakEven target)
    as [-> | (p & r & _ & _ & ->)]; [by left | right; by eexists].
Qed.

Lemma executeHedge_no_credentials w st i symbol spotPrice breakEven target :
  hasCredentials st = false ->
  executeHedge w st i symbol spotPrice breakEven target = (st, []).
Proof.
  intros Hc.
  destruct (executeHedge_cases w st i symbol spotPrice breakEven target)
    as [H | (p & r & _ & Ho & _)]; [exact H |].
  unfold orderFor in Ho. by rewrite openCrossMarginPosition_no_credentials in Ho.
Qed.

Lemma ids_insert_same (l : list Position) i p s :
  l !! i = Some p -> id <$> <[i := setHedgeStatus p s]> l = id <$> l.
Proof.
  intros Hp. rewrite list_fmap_insert. simpl.
  apply list_insert_id. by rewrite list_lookup_fmap, Hp.
Qed.

Lemma executeHedge_keeps_agreement w st i symbol spotPrice breakEven target :
  uniqueIds st -> ledgerAgrees st ->
  uniqueIds (fst (executeHedge w st i symbol spotPrice breakEven target)) /\
  ledgerAgrees (fst (executeHedge w st i symbol spotPrice breakEven target)).
Proof.
  intros Hu Ha.
  destruct (executeHedge_cases w st i symbol spotPrice breakEven target)
    as [-> | (p & r & Hp & _ & ->)]; [by split |].
  unfold uniqueIds, ledgerAgrees in *. simpl.
  split; [by rewrite (ids_insert_same _ _ _ _ Hp) |].
  intros j q Hq. unfold SharedState.getHedgeStatus. simpl.
  destruct (decide (j = i)) as [-> | Hne].
  - rewrite list_lookup_insert_eq in Hq by (by apply lookup_lt_Some in Hp).
    injection Hq as <-. by rewrite lookup_insert_eq.
  - rewrite list_lookup_insert_ne in Hq by done.
    assert (Hid : id p <> id q).
    { intros Heq. apply Hne.
      eapply NoDup_lookup; [exact Hu | |].
      - by rewrite list_lookup_fmap, Hq.
      - rewrite list_lookup_fmap, Hp. simpl. by rewrite Heq. }
    rewrite lookup_insert_ne by done. apply (Ha j q Hq).
Qed.

End HedgeStepLemmas.

Section MonitorLemmas.
Import HedgeUtils DynamicHedgeStrategy HedgeObs HedgeInv HedgeFrame.

(** One iteration of the loop of [monitorPositions]. *)
Lemma monitorLoop_unfold draws st i n :
  monitorLoop draws st i (S n)
  = let step :=
      match SharedState.positions st !! i with
      | None => (st, [])
      | Some position =>
          if Qlt_le_dec (8 # 10) (random (draws i))
          then executeHedge (world (draws i)) st i
                 (exercisedCoin position +:+ investCoin position) (spot (draws i))
                 (strikePrice position * (105 # 100))%Q STEP1
          else (st, [])
      end in
    (fst (monitorLoop draws (fst step) (S i) n),
     snd step ++ snd (monitorLoop draws (fst step) (S i) n)).
Proof.
  simpl.
  destruct (SharedState.positions st !! i) as [p |].
  - destruct (Qlt_le_dec (8 # 10) (random (draws i))).
    + destruct (executeHedge _ _ _ _ _ _ _) as [st1 ev1]. simpl.
      by destruct (monitorLoop draws st1 (S i) n).
    + simpl. by destruct (monitorLoop draws st (S i) n).
  - simpl. by destruct (monitorLoop draws st (S i) n).
Qed.

Lemma monitorLoop_rel (R : SharedState.t -> SharedState.t -> Prop) :
  (forall st, R st st) ->
  (forall a b c, R a b -> R b c -> R a c) ->
  (forall w st i symbol spotPrice breakEven,
      R st (fst (executeHedge w st i symbol spotPrice breakEven STEP1))) ->
  forall n draws st i, R st (fst (monitorLoop draws st i n)).
Proof.
  intros Hrefl Htrans Hstep. induction n as [| n IH]; intros draws st i.
  - apply Hrefl.
  - rewrite monitorLoop_unfold. cbv zeta. simpl fst.
    eapply Htrans; [| apply IH].
    destruct (SharedState.positions st !! i) as [p |]; [| apply Hrefl].
    destruct (Qlt_le_dec (8 # 10) (random (draws i))); [apply Hstep | apply Hrefl].
Qed.

Lemma monitorLoop_events draws st i n :
  exists orders,
    snd (monitorLoop draws st i n) = flat_map (confirmedHedge STEP1) orders /\
    length orders <= n.
Proof.
  revert st i. induction n as [| n IH]; intros st i.
  - exists []. split; [reflexivity | simpl; lia].
  - rewrite monitorLoop_unfold. cbv zeta. simpl snd.
    set (step := match SharedState.positions st !! i with
                 | None => (st, [])
                 | Some position => _
                 end).
    destruct (IH (fst step) (S i)) as (orders & Hev & Hlen). rewrite Hev.
    assert (Hstep : snd step = [] \/ exists o, snd step = confirmedHedge STEP1 o).
    { subst step. destruct (SharedState.positions st !! i) as [p |]; [| by left].
      destruct (Qlt_le_dec (8 # 10) (random (draws i))); [| by left].
      apply executeHedge_events_shape. }
    destruct Hstep as [-> | [o ->]].
    + exists orders. split; [reflexivity | lia].
    + exists (o :: orders). split; [reflexivity | simpl; lia].
Qed.

Lemma monitorLoop_no_credentials draws st i n :
  hasCredentials st = false -> monitorLoop draws st i n = (st, []).
Proof.
  intros Hc. revert i. induction n as [| n IH]; intros i; [reflexivity |].
  rewrite monitorLoop_unfold. cbv zeta.
  assert (Hstep : match SharedState.positions st !! i with
                  | None => (st, [])
                  | Some position =>
                      if Qlt_le_dec (8 # 10) (random (draws i))
                      then executeHedge (world (draws i)) st i
                             (exercisedCoin position +:+ investCoin position)
                             (spot (draws i)) (strikePrice position * (105 # 100))%Q STEP1
                      else (st, [])
                  end = (st, [])).
  { destruct (SharedState.positions st !! i) as [p |]; [| reflexivity].
    destruct (Qlt_le_dec (8 # 10) (random (draws i))); [| reflexivity].
    by apply executeHedge_no_credentials. }
  rewrite Hstep. simpl. by rewrite IH.
Qed.

End MonitorLemmas.

Section HedgeExtras.
Import HedgeUtils DynamicHedgeStrategy HedgeObs HedgeInv HedgeFrame Samples.

Lemma monitorAndHedge_cases nowMs draws st :
  monitorAndHedge nowMs draws st = (st, []) \/
  monitorAndHedge nowMs draws st = monitorPositions draws st.
Proof.
  unfold monitorAndHedge. destruct (SharedState.positions st); [by left |].
  destruct (5 * 60 * 1000 <? nowMs - SharedState.lastUpdated st)%Z; [by left | by right].
Qed.

Lemma hedgeCycles_unfold nowMs draws rest st :
  hedgeCycles ((nowMs, draws) :: rest) st
  = (fst (hedgeCycles rest (fst (monitorAndHedge nowMs draws st))),
     snd (monitorAndHedge nowMs draws st)
     ++ snd (hedgeCycles rest (fst (monitorAndHedge nowMs draws st)))).
Proof.
  simpl. destruct (monitorAndHedge nowMs draws st) as [st1 ev1]. simpl.
  by destruct (hedgeCycles rest st1).
Qed.

Lemma hedgeCycles_rel (R : SharedState.t -> SharedState.t -> Prop) :
  (forall st, R st st) ->
  (forall a b c, R a b -> R b c -> R a c) ->
  (forall w st i symbol spotPrice breakEven,
      R st (fst (executeHedge w st i symbol spotPrice breakEven STEP1))) ->
  forall cycles st, R st (fst (hedgeCycles cycles st)).
Proof.
  intros Hrefl Htrans Hstep. induction cycles as [| [nowMs draws] rest IH]; intros st.
  - apply Hrefl.
  - rewrite hedgeCycles_unfold. simpl fst.
    eapply Htrans; [| apply IH].
    destruct (monitorAndHedge_cases nowMs draws st) as [-> | ->]; [apply Hrefl |].
    unfold monitorPositions. by apply monitorLoop_rel.
Qed.

(** X10.  Hedge cycles change nothing in the shared state but hedge
    statuses and their ledger records: no position object is added, removed
    or moved, the configuration, the timestamp and the balances stay, and a
    position object is either as it was or as it was with status STEP1. *)
Theorem hedgeCycles_change_statuses_only :
  forall (cycles : list (Z * (nat -> Draw))) (st : SharedState.t),
    statusOnly STEP1 st (fst (hedgeCycles cycles st)).
Proof.
  apply hedgeCycles_rel.
  - apply statusOnly_refl.
  - apply statusOnly_trans.
  - intros. apply executeHedge_statusOnly.
Qed.

(** X11.  When the position objects have distinct ids and the ledger map
    holds each one's status, both remain true after any number of hedge
    cycles: [position.hedgeStatus] and [getHedgeStatus(position.id)] never
    come apart. *)
Theorem hedgeCycles_keep_ledger_agreement :
  forall (cycles : list (Z * (nat -> Draw))) (st : SharedState.t),
    uniqueIds st -> ledgerAgrees st ->
    uniqueIds (fst (hedgeCycles cycles st)) /\
    ledgerAgrees (fst (hedgeCycles cycles st)).
Proof.
  intros cycles st Hu Ha.
  apply (hedgeCycles_rel
           (fun a b => uniqueIds a /\ ledgerAgrees a -> uniqueIds b /\ ledgerAgrees b));
    [tauto | tauto | | by split].
  intros w st0 i symbol spotPrice breakEven [Hu0 Ha0].
  by apply executeHedge_keeps_agreement.
Qed.

Lemma hedgeCycles_keep_ledger_agreement_witness :
  ledgerAgrees
    (fst (hedgeCycles [(0%Z, firing accepting); (180000%Z, firing rejecting)]
            (stateWith NONE))).
Proof.
  apply hedgeCycles_keep_ledger_agreement.
  - apply (bool_decide_unpack _). by vm_compute.
  - intros [| i] p Hp; [| discriminate]. injection Hp as <-. reflexivity.
Defined.

(** X12.  Without API credentials in the shared configuration no hedge is
    ever executed: any sequence of hedge cycles leaves the state as it is
    and produces no order and no ledger update. *)
Theorem hedgeCycles_without_credentials :
  forall (cycles : list (Z * (nat -> Draw))) (st : SharedState.t),
    hasCredentials st = false ->
    hedgeCycles cycles st = (st, []).
Proof.
  induction cycles as [| [nowMs draws] rest IH]; intros st Hc; [reflexivity |].
  rewrite hedgeCycles_unfold.
  assert (Hm : monitorAndHedge nowMs draws st = (st, [])).
  { destruct (monitorAndHedge_cases nowMs draws st) as [H | H]; [exact H |].
    rewrite H. by apply monitorLoop_no_credentials. }
  rewrite Hm. simpl. by rewrite (IH st Hc).
Qed.

Lemma hedgeCycles_without_credentials_witness :
  hedgeCycles [(0%Z, firing accepting)]
    (SharedState.mk [position1 NONE] 0 ∅ None None ∅ 0)
  = (SharedState.mk [position1 NONE] 0 ∅ None None ∅ 0, []).
Proof. apply hedgeCycles_without_credentials. reflexivity. Defined.

(** X13.  The effects of one monitoring pass come in pairs: each confirmed
    margin order is followed at once by the ledger update of the same
    position to STEP1, there is no order without its record and no record
    without an order, and there are at most as many pairs as positions. *)
Theorem monitorPositions_events_paired :
  forall (draws : nat -> Draw) (st : SharedState.t),
    exists orders,
      snd (monitorPositions draws st) = flat_map (confirmedHedge STEP1) orders /\
      length orders <= length (SharedState.positions st).
Proof. intros draws st. apply monitorLoop_events. Qed.

(** [monitorAndHedge] does nothing when the positions are more than
    five minutes old or there are none; positions exactly five minutes old
    are still monitored. *)
Theorem monitorAndHedge_staleness :
  forall (nowMs : Z) (draws : nat -> Draw) (st : SharedState.t),
    ((300000 < nowMs - SharedState.lastUpdated st)%Z \/ SharedState.positions st = [] ->
     monitorAndHedge nowMs draws st = (st, [])) /\
    ((nowMs - SharedState.lastUpdated st <= 300000)%Z ->
     monitorAndHedge nowMs draws st = monitorPositions draws st).
Proof.
  intros nowMs draws st. unfold monitorAndHedge. split.
  - intros [Hold | Hnone]; [| by rewrite Hnone].
    destruct (SharedState.positions st); [reflexivity |].
    replace (5 * 60 * 1000 <? nowMs - SharedState.lastUpdated st)%Z with true
      by (symmetry; apply Z.ltb_lt; lia).
    reflexivity.
  - intros Hfresh. unfold monitorPositions.
    destruct (SharedState.positions st) eqn:Hp; [reflexivity |].
    replace (5 * 60 * 1000 <? nowMs - SharedState.lastUpdated st)%Z with false
      by (symmetry; apply Z.ltb_ge; lia).
    reflexivity.
Qed.

Lemma monitorAndHedge_staleness_witness :
  monitorAndHedge 300001 (firing accepting) (stateWith NONE) = (stateWith NONE, []) /\
  monitorAndHedge 300000 (firing accepting) (stateWith NONE)
  = monitorPositions (firing accepting) (stateWith NONE).
Proof.
  split.
  - apply (monitorAndHedge_staleness 300001 (firing accepting) (stateWith NONE)).
    left. reflexivity.
  - apply (monitorAndHedge_staleness 300000 (firing accepting) (stateWith NONE)).
    discriminate.
Defined.



End HedgeExtras.

Section BorrowFacts.
Import COLLATERAL_CONFIG Borrow BorrowSamples.

Example collateralOrder_BTC :
  map fst (collateralOrder "BTC" assets) = ["FDUSD"; "USDT"; "BTC"]%string.
Proof. vm_compute. reflexivity. Qed.

Example collateralOrder_FDUSD :
  map fst (collateralOrder "FDUSD" assets) = ["BTC"; "FDUSD"; "USDT"]%string.
Proof. vm_compute. reflexivity. Qed.

Example collateralOrder_ADA :
  map fst (collateralOrder "ADA" assets) = ["BTC"; "FDUSD"; "USDT"]%string.
Proof. vm_compute. reflexivity. Qed.

Example borrow_BTC_attempts :
  map collateralCoin (snd (borrowCoins onlyBtcAccepted assets "BTC" 1))
  = ["FDUSD"; "USDT"; "BTC"]%string.
Proof. vm_compute. reflexivity. Qed.

End BorrowFacts.

Section SortLemmas.
Import COLLATERAL_CONFIG Borrow BorrowObs.

Lemma insertBy_perm compare x l : insertBy compare x l ≡ₚ x :: l.
Proof.
  induction l as [| y l IH]; simpl; [reflexivity |].
  destruct (Qle_bool (compare x y) 0); [reflexivity |].
  rewrite IH. apply Permutation_swap.
Qed.

Lemma sortBy_perm compare l : sortBy compare l ≡ₚ l.
Proof.
  induction l as [| x l IH]; simpl; [reflexivity |].
  unfold sortBy in *. simpl. rewrite insertBy_perm. by rewrite IH.
Qed.





Lemma insertBy_btcLast_other x others btc :
  isBTC x = false ->
  Forall (fun e => isBTC e = false) others ->
  Forall (fun e => isBTC e = true) btc ->
  insertBy btcLast x (others ++ btc) = insertBy byPriority x others ++ btc.
Proof.
  intros Hx Ho Hb. unfold isBTC in *.
  induction Ho as [| y others Hy Ho IH]; simpl.
  - destruct Hb as [| b btc Hbb Hb]; simpl; [reflexivity |].
    unfold btcLast. rewrite Hx, Hbb. reflexivity.
  - unfold btcLast at 1. rewrite Hx, Hy.
    destruct (Qle_bool (byPriority x y) 0); [reflexivity |].
    simpl. by rewrite IH.
Qed.

Lemma insertBy_btcFirst_btc x l : isBTC x = true -> insertBy btcFirst x l = x :: l.
Proof.
  intros Hx. destruct l as [| y l]; simpl; [reflexivity |].
  unfold btcFirst. unfold isBTC in Hx. rewrite Hx. reflexivity.
Qed.

Lemma insertBy_btcFirst_other x others btc :
  isBTC x = false ->
  Forall (fun e => isBTC e = false) others ->
  Forall (fun e => isBTC e = true) btc ->
  insertBy btcFirst x (btc ++ others) = btc ++ insertBy byPriority x others.
Proof.
  intros Hx Ho Hb. unfold isBTC in *.
  induction Hb as [| b btc Hbb Hb IH]; simpl.
  - induction Ho as [| y others Hy Ho IH]; simpl; [reflexivity |].
    unfold btcFirst at 1. rewrite Hx, Hy.
    destruct (Qle_bool (byPriority x y) 0); [reflexivity |].
    by rewrite IH.
  - unfold btcFirst at 1. rewrite Hx, Hbb. simpl. by rewrite IH.
Qed.

Lemma sortBy_Forall (P : Entry -> Prop) compare l :
  Forall P l -> Forall P (sortBy compare l).
Proof. intros H. by rewrite sortBy_perm. Qed.

Lemma filter_Forall_true (f : Entry -> bool) l : Forall (fun e => f e = true) (List.filter f l).
Proof.
  apply List.Forall_forall. intros e He. apply List.filter_In in He. tauto.
Qed.

Lemma filter_negb_Forall (f : Entry -> bool) l :
  Forall (fun e => f e = false) (List.filter (fun e => negb (f e)) l).
Proof.
  apply List.Forall_forall. intros e He. apply List.filter_In in He.
  destruct He as [_ He]. by apply negb_true_iff in He.
Qed.

Lemma sortBy_btcFirst l :
  sortBy btcFirst l
  = List.filter isBTC l ++ sortBy byPriority (List.filter (fun e => negb (isBTC e)) l).
Proof.
  induction l as [| x l IH]; [reflexivity |].
  change (sortBy btcFirst (x :: l)) with (insertBy btcFirst x (sortBy btcFirst l)).
  rewrite IH. simpl. destruct (isBTC x) eqn:Hx; simpl.
  - by apply insertBy_btcFirst_btc.
  - apply insertBy_btcFirst_other; [exact Hx | |].
    + apply sortBy_Forall, filter_negb_Forall.
    + apply filter_Forall_true.
Qed.




End SortLemmas.

Section BorrowClaims.
Import COLLATERAL_CONFIG Borrow BorrowObs BorrowSamples.





(** A stablecoin is kept from backing its own loan only by the ticker,
    which has no price for a pair such as USDTUSDT. *)
Example borrow_USDT_attempts :
  map collateralCoin (snd (borrowCoins allRejected assets "USDT" 100))
  = ["BTC"]%string.
Proof. vm_compute. reflexivity. Qed.

End BorrowClaims.

Section BorrowExtras.
Import COLLATERAL_CONFIG Borrow BorrowObs BorrowSamples.

Lemma tryCollaterals_outcome m coin amount candidates :
  forall step,
    let '(result, sent) := tryCollaterals m coin amount step candidates in
    match result with
    | Some data =>
        exists earlier accepted k,
          sent = earlier ++ [accepted] /\
          postBorrow m k accepted = Some data /\
          Forall (fun p => exists k', postBorrow m k' p = None) earlier
    | None => Forall (fun p => exists k', postBorrow m k' p = None) sent
    end.
Proof.
  induction candidates as [| [collateralCoin collateralConfig] rest IH]; intros step.
  - simpl. constructor.
  - simpl.
    destruct (if isStable collateralCoin
              then (fetchCurrentPrice m step (coin +:+ collateralCoin), Some 1%Q)
              else if isStable coin
              then (Some 1%Q, fetchCurrentPrice m step (collateralCoin +:+ coin))
              else (fetchCurrentPrice m step (coin +:+ "USDT"),
                    fetchCurrentPrice m step (collateralCoin +:+ "USDT")))
      as [currentPrice collateralPrice].
    destruct (falsyPrice currentPrice || falsyPrice collateralPrice); [apply IH |].
    destruct (negb (apiSecret m)); [constructor |].
    destruct (postBorrow m step _) as [data |] eqn:Hpost.
    + exists []. eexists. exists step.
      split; [reflexivity |]. split; [exact Hpost | constructor].
    + specialize (IH (S step)).
      destruct (tryCollaterals m coin amount (S step) rest) as [[data |] sent].
      * destruct IH as (earlier & accepted & k & -> & Hacc & Hrej).
        eexists (_ :: earlier). exists accepted, k.
        split; [reflexivity |]. split; [exact Hacc |].
        constructor; [by exists step | exact Hrej].
      * constructor; [by exists step | exact IH].
Qed.

(** X22.  [borrowCoins] takes at most one loan per call: when it returns a
    loan, the accepted request is the last one it sent and every request
    before it was rejected; when it returns null, every request it sent was
    rejected. *)
Theorem borrowCoins_stops_at_first_loan :
  forall (m : Market) (config : list Entry) (coin : string) (amount : Q),
    match fst (borrowCoins m config coin amount) with
    | Some data =>
        exists earlier accepted k,
          snd (borrowCoins m config coin amount) = earlier ++ [accepted] /\
          postBorrow m k accepted = Some data /\
          Forall (fun p => exists k', postBorrow m k' p = None) earlier
    | None =>
        Forall (fun p => exists k', postBorrow m k' p = None)
               (snd (borrowCoins m config coin amount))
    end.
Proof.
  intros m config coin amount. unfold borrowCoins.
  pose proof (tryCollaterals_outcome m coin amount (collateralOrder coin config) 0) as H.
  by destruct (tryCollaterals m coin amount 0 (collateralOrder coin config)) as [[data |] sent].
Qed.

Lemma tryCollaterals_nothing_sent m coin amount candidates :
  apiSecret m = false \/
  (forall k pair, falsyPrice (fetchCurrentPrice m k pair) = true) ->
  forall step, tryCollaterals m coin amount step candidates = (None, []).
Proof.
  intros Hwhy.
  induction candidates as [| [collateralCoin collateralConfig] rest IH]; intros step;
    [reflexivity |].
  simpl. destruct Hwhy as [Hsecret | Hprices].
  - destruct (if isStable collateralCoin then _ else _) as [currentPrice collateralPrice].
    destruct (falsyPrice currentPrice || falsyPrice collateralPrice); [apply IH |].
    by rewrite Hsecret.
  - destruct (isStable collateralCoin).
    + rewrite Hprices. simpl. apply IH.
    + destruct (isStable coin).
      * rewrite Hprices. simpl. apply IH.
      * rewrite Hprices. simpl. apply IH.
Qed.

(** X23.  [borrowCoins] returns null without sending any borrow request
    when the API secret is undefined, when no price can be fetched, or when
    no collateral asset is enabled. *)
Theorem borrowCoins_sends_nothing :
  forall (m : Market) (config : list Entry) (coin : string) (amount : Q),
    apiSecret m = false \/
    (forall k pair, falsyPrice (fetchCurrentPrice m k pair) = true) \/
    Forall (fun e => enabled (snd e) = false) config ->
    borrowCoins m config coin amount = (None, []).
Proof.
  intros m config coin amount [Hs | [Hp | Hnone]]; unfold borrowCoins.
  - apply tryCollaterals_nothing_sent. by left.
  - apply tryCollaterals_nothing_sent. by right.
  - assert (He : List.filter (fun e => enabled (snd e)) config = []).
    { induction Hnone as [| e l He Hl IH]; [reflexivity |]. simpl. by rewrite He. }
    unfold collateralOrder. rewrite He. by destruct (String.eqb coin "BTC").
Qed.

Lemma borrowCoins_sends_nothing_witness :
  borrowCoins (mkMarket prices (fun _ _ => Some (mkBorrowData 1)) false) assets "ETH" 2
  = (None, []).
Proof. apply borrowCoins_sends_nothing. left. reflexivity. Defined.

Lemma insertBy_head x l :
  Forall (priorityLe x) l -> insertBy byPriority x l = x :: l.
Proof.
  intros H. destruct H as [| y l Hy Hl]; [reflexivity |]. simpl.
  replace (Qle_bool (byPriority x y) 0) with true; [reflexivity |].
  symmetry. apply Qle_bool_iff. unfold byPriority, priorityLe in *. lra.
Qed.

Lemma sortBy_sorted_id l : StronglySorted priorityLe l -> sortBy byPriority l = l.
Proof.
  induction 1 as [| x l Hs IH Hall]; [reflexivity |].
  change (sortBy byPriority (x :: l)) with (insertBy byPriority x (sortBy byPriority l)).
  rewrite IH. by apply insertBy_head.
Qed.

(** X24.  The sort does not disturb an order that is already right: when
    the enabled assets do not include BTC and are listed by non-decreasing
    priority, they are tried in the listed order, assets of equal priority
    in configuration order, whatever coin is borrowed. *)
Theorem collateralOrder_keeps_listed_order :
  forall (config : list Entry) (coin : string),
    Forall (fun e => isBTC e = false) (enabledAssets config) ->
    StronglySorted priorityLe (enabledAssets config) ->
    collateralOrder coin config = enabledAssets config.
Proof.
  intros config coin Hbtc Hsorted. unfold collateralOrder. fold (enabledAssets config).
  assert (Hlast : forall l, Forall (fun e => isBTC e = false) l ->
                            sortBy btcLast l = sortBy byPriority l).
  { induction 1 as [| x l Hx Hl IH]; [reflexivity |].
    change (sortBy btcLast (x :: l)) with (insertBy btcLast x (sortBy btcLast l)).
    rewrite IH.
    rewrite <- (app_nil_r (sortBy byPriority l)) at 1.
    rewrite insertBy_btcLast_other; [by rewrite app_nil_r | exact Hx | | constructor].
    by apply sortBy_Forall. }
  assert (Hfirst : forall l, Forall (fun e => isBTC e = false) l ->
                             sortBy btcFirst l = sortBy byPriority l).
  { intros l Hl. rewrite sortBy_btcFirst.
    assert (Hno : List.filter isBTC l = []).
    { induction Hl as [| x l Hx Hl IH]; [reflexivity |]. simpl. by rewrite Hx. }
    assert (Hall : List.filter (fun e => negb (isBTC e)) l = l).
    { induction Hl as [| x l Hx Hl IH]; [reflexivity |]. simpl. rewrite Hx. simpl.
      f_equal. apply IH.
      clear -Hl. induction Hl as [| y l Hy Hl IH]; [reflexivity |]. simpl. by rewrite Hy. }
    by rewrite Hno, Hall. }
  destruct (String.eqb coin "BTC").
  - rewrite Hlast by exact Hbtc. by apply sortBy_sorted_id.
  - rewrite Hfirst by exact Hbtc. by apply sortBy_sorted_id.
Qed.

Lemma collateralOrder_keeps_listed_order_witness :
  collateralOrder "ETH"
    [("FDUSD"%string, mkAsset true 100 100000 (75 # 100) 2);
     ("ETH"%string, mkAsset false 1 100 (70 # 100) 1);
     ("USDT"%string, mkAsset true 100 100000 (75 # 100) 2)]
  = enabledAssets
      [("FDUSD"%string, mkAsset true 100 100000 (75 # 100) 2);
       ("ETH"%string, mkAsset false 1 100 (70 # 100) 1);
       ("USDT"%string, mkAsset true 100 100000 (75 # 100) 2)].
Proof.
  apply collateralOrder_keeps_listed_order.
  - vm_compute. repeat constructor.
  - vm_compute. repeat constructor; discriminate.
Defined.

End BorrowExtras.

Section IndexFacts.
Import Index IndexSamples.

Example mainLoop_30_of_30 :
  fst (mainLoop 30 (worldWith 30) emptyState) = ProcessExit 0 MaxPositionsReached.
Proof. vm_compute. reflexivity. Qed.

Example mainLoop_29_of_30 :
  fst (mainLoop 30 (worldWith 29) emptyState) = Returned.
Proof. vm_compute. reflexivity. Qed.

Example mainLoop_29_hedged_of_30 :
  fst (mainLoop 30 (worldWith 29) (hedgedState 29)) = Returned.
Proof. vm_compute. reflexivity. Qed.

Example mainLoop_fractional_cap :
  fst (mainLoop (61 # 2) (worldWith 30) (hedgedState 30))
  = ProcessExit 0 MaxHedgedPositionsReached.
Proof. vm_compute. reflexivity. Qed.

Example runExecution_30_of_30 :
  runExecution 30 (worldWith 30) (snd (mainLoop 30 (worldWith 30) emptyState))
  = SkippedMaxPositions.
Proof. vm_compute. reflexivity. Qed.

End IndexFacts.

Section MainLoopClaims.
Import Index IndexSamples.

Lemma hedgedCount_le_length (l : list Position) : hedgedCount l <= length l.
Proof. unfold hedgedCount. apply List.filter_length_le. Qed.

Lemma capReached_true maxTotal l :
  capReached maxTotal l = true <-> (maxTotal <= inject_Z (Z.of_nat (length l)))%Q.
Proof. unfold capReached. apply Qle_bool_iff. Qed.

Lemma capReached_false_int (m : Z) l :
  capReached (inject_Z m) l = false -> (Z.of_nat (length l) < m)%Z.
Proof.
  intros H. destruct (Z.lt_ge_cases (Z.of_nat (length l)) m) as [Hlt | Hge]; [exact Hlt |].
  exfalso. rewrite Zle_Qle in Hge. apply capReached_true in Hge. congruence.
Qed.



(** C10.  For every integer [MAX_TOTAL_POSITIONS], the hedged-position
    stop of [mainLoop] never fires: either the position count has already
    reached the cap, and the function has exited there, or the hedged count
    is strictly below [Math.floor(MAX_TOTAL_POSITIONS)]. *)
Theorem hedged_stop_unreachable :
  forall (maxTotalPositions : Z) (w : World) (st : SharedState.t),
    let activePositions :=
      SharedState.positions (updateSpotBalances w (updatePositions w st)) in
    (capReached (inject_Z maxTotalPositions) activePositions = true \/
     (Z.of_nat (hedgedCount activePositions) < Qfloor (inject_Z maxTotalPositions))%Z) /\
    forall code,
      fst (mainLoop (inject_Z maxTotalPositions) w st)
      <> ProcessExit code MaxHedgedPositionsReached.
Proof.
  intros m w st activePositions. unfold mainLoop. fold activePositions.
  destruct (capReached (inject_Z m) activePositions) eqn:Hcap.
  - split; [by left | intros code; discriminate].
  - apply capReached_false_int in Hcap.
    pose proof (hedgedCount_le_length activePositions) as Hle.
    rewrite Qfloor_Z.
    split; [right; lia |].
    intros code.
    replace (m <=? Z.of_nat (hedgedCount activePositions))%Z with false
      by (symmetry; apply Z.leb_gt; lia).
    discriminate.
Qed.

(** With a fractional cap the same branch can fire: the C10 statement is
    about integer caps only. *)
Lemma hedged_stop_reachable_for_fractional_cap :
  fst (mainLoop (61 # 2) (worldWith 30) (hedgedState 30))
  = ProcessExit 0 MaxHedgedPositionsReached.
Proof. vm_compute. reflexivity. Qed.

End MainLoopClaims.

Section SafeRunClaims.
Import Index IndexSamples.

(** C6.  When [cronLock] is set, [safeRun] does not run the task: it logs
    and returns, and no trace of the invocation is kept.  When the lock is
    free, the task runs with the lock held, and whether it resolves or
    rejects the lock is free again when [safeRun] is done.  An invocation
    that arrives while the task is suspended is dropped: the end state does
    not depend on the task it carried. *)
Theorem safeRun_drops_overlap_and_releases_lock :
  forall (task : Task) (c : Cron),
    (cronLock c = true -> safeRun task c = (Skipped, addLog skipMessage c)) /\
    (cronLock c = false ->
       cronLock (setLock true c) = true /\
       forall e c', task (setLock true c) = (e, c') ->
                    (forall code, e <> Exit code) ->
                    fst (safeRun task c) = Ran e /\
                    cronLock (snd (safeRun task c)) = false) /\
    (cronLock c = false ->
       forall inner : Task,
         safeRun (withOverlappingTrigger inner Resolved) c
         = (Ran Resolved, addLog skipMessage c) /\
         forall message,
           safeRun (withOverlappingTrigger inner (Rejected message)) c
           = (Ran (Rejected message),
              addLog ("Cron task failed: " +:+ message) (addLog skipMessage c))).
Proof.
  intros task c. split; [| split].
  - intros Hl. unfold safeRun. by rewrite Hl.
  - intros Hl. split; [reflexivity |].
    intros e c' Ht Hne. unfold safeRun. rewrite Hl, Ht.
    destruct e as [| message | code]; simpl; [done | done |].
    by destruct (Hne code).
  - intros Hl inner. destruct c as [lock sh lg ex]. simpl in Hl. subst lock.
    split; [reflexivity | intros message; reflexivity].
Qed.

Lemma safeRun_drops_overlap_and_releases_lock_witness :
  safeRun (mainLoopTask 30 (worldWith 3)) (setLock true idle)
    = (Skipped, addLog skipMessage (setLock true idle)) /\
  cronLock (snd (safeRun (mainLoopTask 30 (worldWith 3)) idle)) = false /\
  cronLock (snd (safeRun (fun c => (Rejected "network down", c)) idle)) = false /\
  safeRun (withOverlappingTrigger (mainLoopTask 30 (worldWith 3)) Resolved) idle
    = (Ran Resolved, addLog skipMessage idle).
Proof.
  destruct (safeRun_drops_overlap_and_releases_lock
              (mainLoopTask 30 (worldWith 3)) (setLock true idle)) as (Hskip & _ & _).
  destruct (safeRun_drops_overlap_and_releases_lock
              (mainLoopTask 30 (worldWith 3)) idle) as (_ & Hrun & Hdrop).
  destruct (safeRun_drops_overlap_and_releases_lock
              (fun c => (Rejected "network down", c)) idle) as (_ & Hthrow & _).
  split; [apply Hskip; reflexivity |].
  split.
  - destruct (Hrun eq_refl) as [_ H].
    apply (H Resolved (snd (mainLoopTask 30 (worldWith 3) (setLock true idle)))).
    + vm_compute. reflexivity.
    + discriminate.
  - split.
    + destruct (Hthrow eq_refl) as [_ H].
      apply (H (Rejected "network down") (setLock true idle)); [reflexivity | discriminate].
    + apply (Hdrop eq_refl (mainLoopTask 30 (worldWith 3))).
Defined.

End SafeRunClaims.

Section UpdatePositionsLemmas.
Import Index HedgeInv.

Lemma snapshot_fold_status (g : string -> HedgeStatus) (now : string) (l : list Position) :
  Forall (fun p => hedgeStatus p = g (id p)) l ->
  forall (m : gmap string LedgerEntry),
    (forall k e, m !! k = Some e -> le_hedgeStatus e = g k) ->
    forall k e,
      foldl (fun m pos => <[id pos := snapshotEntry now pos]> m) m l !! k = Some e ->
      le_hedgeStatus e = g k.
Proof.
  induction 1 as [| p l Hp Hl IH]; intros m Hm k e; simpl; [apply Hm |].
  apply IH. intros k' e' Hk'.
  destruct (decide (id p = k')) as [<- | Hne].
  - rewrite lookup_insert_eq in Hk'. injection Hk' as <-. exact Hp.
  - rewrite lookup_insert_ne in Hk' by done. by apply Hm.
Qed.

Lemma snapshot_fold_dom (now : string) (l : list Position) :
  forall (m : gmap string LedgerEntry) k,
    is_Some (foldl (fun m pos => <[id pos := snapshotEntry now pos]> m) m l !! k)
    <-> is_Some (m !! k) \/ k ∈ id <$> l.
Proof.
  induction l as [| p l IH]; intros m k; simpl.
  - split; [by left | intros [H | H]; [exact H | by apply elem_of_nil in H]].
  - rewrite IH, elem_of_cons. destruct (decide (id p = k)) as [<- | Hne].
    + rewrite lookup_insert_eq. split; [intros _; right; by left | intros _; left; by eexists].
    + rewrite lookup_insert_ne by done. split.
      * intros [H | H]; [by left | right; by right].
      * intros [H | [H | H]]; [by left | congruence | by right].
Qed.

Lemma updatePositions_positions w st :
  SharedState.positions (updatePositions w st)
  = map (fun pos => setHedgeStatus pos
                      (SharedState.getHedgeStatus (SharedState.loadHedgeStatus st) (id pos)))
        (default [] (fetchPositions w)).
Proof. reflexivity. Qed.

Lemma updatePositions_statuses w st :
  SharedState.hedgeStatuses (updatePositions w st)
  = SharedState.hedgeStatuses (SharedState.loadHedgeStatus st).
Proof. reflexivity. Qed.

Lemma ids_with_status (g : string -> HedgeStatus) (l : list Position) :
  id <$> map (fun pos => setHedgeStatus pos (g (id pos))) l = id <$> l.
Proof.
  induction l as [| p l IH]; [reflexivity |].
  cbn [map]. rewrite !fmap_cons. by rewrite IH.
Qed.

Lemma updatePositions_ids w st :
  id <$> SharedState.positions (updatePositions w st) = id <$> default [] (fetchPositions w).
Proof. rewrite updatePositions_positions. apply ids_with_status. Qed.

(** After a reload, an id reported by the exchange has the status it was
    given by the [updatePositions] before. *)
Lemma updatePositions_reload w st k :
  k ∈ id <$> default [] (fetchPositions w) ->
  SharedState.getHedgeStatus (SharedState.loadHedgeStatus (updatePositions w st)) k
  = SharedState.getHedgeStatus (SharedState.loadHedgeStatus st) k.
Proof.
  intros Hk. set (g := SharedState.getHedgeStatus (SharedState.loadHedgeStatus st)).
  unfold updatePositions. fold g.
  set (positions := map (fun pos => setHedgeStatus pos (g (id pos)))
                        (default [] (fetchPositions w))).
  set (positionsMap := foldl (fun m pos => <[id pos := snapshotEntry (nowIso w) pos]> m)
                             ∅ positions).
  assert (Hids : id <$> positions = id <$> default [] (fetchPositions w)).
  { subst positions. apply ids_with_status. }
  assert (Hall : Forall (fun p => hedgeStatus p = g (id p)) positions).
  { subst positions. apply Forall_forall. intros p Hp.
    apply list_elem_of_fmap in Hp as (q & -> & _). reflexivity. }
  destruct (writeOk w).
  - unfold SharedState.loadHedgeStatus, SharedState.getHedgeStatus. simpl.
    rewrite lookup_fmap.
    assert (Hsome : is_Some (positionsMap !! k)).
    { apply snapshot_fold_dom. right. by rewrite Hids. }
    destruct Hsome as [e He]. rewrite He. simpl.
    apply (snapshot_fold_status g (nowIso w) positions Hall ∅); [| exact He].
    intros k' e' H'. by rewrite lookup_empty in H'.
  - unfold SharedState.loadHedgeStatus at 1. simpl.
    destruct (SharedState.positionsFile (SharedState.loadHedgeStatus st)) as [file |] eqn:Hfile.
    + subst g. unfold SharedState.getHedgeStatus. simpl.
      unfold SharedState.loadHedgeStatus in *.
      destruct (SharedState.positionsFile st) as [file0 |] eqn:Hfile0; simpl in *.
      * by injection Hfile as <-.
      * by rewrite Hfile0 in Hfile.
    + reflexivity.
Qed.

End UpdatePositionsLemmas.

Section IndexExtras.
Import Index IndexSamples HedgeInv CronSequence.

(** X15.  [updatePositions] makes [sharedState.positions] the exchange's
    list, position by position and in the same order (the empty list when
    the fetch failed), each object carrying the status the reloaded ledger
    has for its id: afterwards [position.hedgeStatus] and
    [getHedgeStatus(position.id)] agree. *)
Theorem updatePositions_reconciles :
  forall (w : World) (st : SharedState.t),
    let st' := updatePositions w st in
    id <$> SharedState.positions st' = id <$> default [] (fetchPositions w) /\
    (fetchPositions w = None -> SharedState.positions st' = []) /\
    ledgerAgrees st' /\
    SharedState.lastUpdated st' = nowMs w.
Proof.
  intros w st st'. subst st'.
  split; [apply updatePositions_ids |].
  split; [intros H; rewrite updatePositions_positions, H; reflexivity |].
  split; [| reflexivity].
  intros i p Hp. rewrite updatePositions_positions in Hp.
  rewrite list_lookup_fmap in Hp.
  destruct (default [] (fetchPositions w) !! i) as [q |]; [| discriminate].
  injection Hp as <-. reflexivity.
Qed.

Lemma updatePositions_reconciles_witness :
  SharedState.positions
    (updatePositions (mkWorld None ∅ None None 1000 "2025-06-01T00:00:00.000Z" true)
       (hedgedState 3)) = [] /\
  ledgerAgrees (updatePositions (worldWith 3) (hedgedState 2)).
Proof.
  split.
  - apply (updatePositions_reconciles
             (mkWorld None ∅ None None 1000 "2025-06-01T00:00:00.000Z" true) (hedgedState 3)).
    reflexivity.
  - apply (updatePositions_reconciles (worldWith 3) (hedgedState 2)).
Defined.

(** X16.  Reconciliation is idempotent on the positions: running
    [updatePositions] a second time against the same exchange answer gives
    the same position objects with the same statuses, whether or not the
    ledger file could be written. *)
Theorem updatePositions_idempotent :
  forall (w : World) (st : SharedState.t),
    SharedState.positions (updatePositions w (updatePositions w st))
    = SharedState.positions (updatePositions w st).
Proof.
  intros w st. rewrite !updatePositions_positions.
  apply map_ext_in. intros p Hp. f_equal.
  apply updatePositions_reload. apply list_elem_of_fmap.
  exists p. split; [reflexivity | by apply list_elem_of_In].
Qed.

(** X17.  When its write succeeds, [updatePositions] replaces the ledger
    file by one entry per position the exchange reports now: the entry of
    an id the exchange no longer reports is dropped, and with it the
    recorded hedge status. *)
Theorem updatePositions_prunes_ledger_file :
  forall (w : World) (st : SharedState.t),
    writeOk w = true ->
    exists file,
      SharedState.positionsFile (updatePositions w st) = Some file /\
      forall k, is_Some (file !! k) <-> k ∈ id <$> default [] (fetchPositions w).
Proof.
  intros w st Hw. unfold updatePositions. rewrite Hw. simpl.
  eexists. split; [reflexivity |].
  intros k. rewrite snapshot_fold_dom, lookup_empty, ids_with_status.
  split; [intros [[x Hx] | H]; [discriminate | exact H] | by right].
Qed.

Lemma updatePositions_prunes_ledger_file_witness :
  exists file,
    SharedState.positionsFile (updatePositions (worldWith 2) (hedgedState 5)) = Some file /\
    forall k, is_Some (file !! k) <-> k ∈ id <$> default [] (fetchPositions (worldWith 2)).
Proof. apply updatePositions_prunes_ledger_file. reflexivity. Defined.

(** X18.  One failed position fetch erases every hedge status: the fetch
    returns null, the ledger file is rewritten empty, and at the next
    [updatePositions] every position, whatever it was before, comes back
    with status NONE. *)
Theorem failed_fetch_erases_hedge_statuses :
  forall (w w' : World) (st : SharedState.t),
    fetchPositions w = None -> writeOk w = true ->
    SharedState.positionsFile (updatePositions w st) = Some ∅ /\
    Forall (fun p => hedgeStatus p = NONE)
           (SharedState.positions (updatePositions w' (updatePositions w st))).
Proof.
  intros w w' st Hf Hw.
  assert (Hfile : SharedState.positionsFile (updatePositions w st) = Some ∅).
  { unfold updatePositions. rewrite Hw, Hf. reflexivity. }
  split; [exact Hfile |].
  rewrite updatePositions_positions. apply Forall_forall. intros p Hp.
  apply list_elem_of_fmap in Hp as (q & -> & _). simpl.
  unfold SharedState.loadHedgeStatus. rewrite Hfile.
  unfold SharedState.getHedgeStatus. simpl. by rewrite fmap_empty, lookup_empty.
Qed.

Lemma failed_fetch_erases_hedge_statuses_witness :
  Forall (fun p => hedgeStatus p = NONE)
    (SharedState.positions
       (updatePositions (worldWith 3)
          (updatePositions
             (mkWorld None ∅ None None 1000 "2025-06-01T00:00:00.000Z" true)
             (hedgedState 3)))).
Proof.
  apply (failed_fetch_erases_hedge_statuses
           (mkWorld None ∅ None None 1000 "2025-06-01T00:00:00.000Z" true)
           (worldWith 3) (hedgedState 3)); reflexivity.
Defined.

(** The statuses that X18 erases were there: with a successful fetch the
    same three positions come back fully hedged. *)
Example hedged_positions_before_failed_fetch :
  map hedgeStatus (SharedState.positions (updatePositions (worldWith 3) (hedgedState 3)))
  = [FULL; FULL; FULL].
Proof. vm_compute. reflexivity. Qed.

(** X19.  When [runExecution] reaches [execute], the position cap is not
    reached and the list handed over is the selection, of one to three
    products with a spot price, followed by the same selection again: the
    short-term and the long-term pass return the same products, so each is
    handed over twice. *)
Theorem runExecution_hands_over_selection_twice :
  forall (maxTotalPositions : Q) (w : World) (st : SharedState.t)
         (allProcessed : list Product) (balances : gmap string Q),
    runExecution maxTotalPositions w st = Executed allProcessed balances ->
    capReached maxTotalPositions (SharedState.positions st) = false /\
    balances = SharedState.spotBalances st /\
    exists selection,
      allProcessed = selection ++ selection /\
      1 <= length selection <= 3 /\
      Forall (fun p => truthyPrice (p_spotPrice p) = true /\ is_Some (p_metrics p)) selection.
Proof.
  intros maxTotalPositions w st allProcessed balances H.
  unfold runExecution in H.
  destruct (capReached maxTotalPositions (SharedState.positions st)); [discriminate |].
  destruct (fetchSpotPrices w) as [spotPrices |]; [| discriminate].
  destruct (fetchDualInvestmentProducts w) as [products |]; [| discriminate].
  set (withSpot := List.filter (fun p => truthyPrice (p_spotPrice p)) _) in H.
  assert (Hspot : Forall (fun p => truthyPrice (p_spotPrice p) = true) withSpot).
  { apply List.Forall_forall. intros p Hp. apply List.filter_In in Hp. tauto. }
  destruct withSpot as [| p0 rest] eqn:Hws; [discriminate |].
  unfold Algo.filterAndProcessProducts in H.
  set (selection := map _ (take 3 (p0 :: rest))) in H.
  assert (Hlen : 1 <= length selection <= 3).
  { subst selection. rewrite length_map, length_take, length_cons. lia. }
  assert (Hsel : Forall (fun p => truthyPrice (p_spotPrice p) = true /\ is_Some (p_metrics p))
                        selection).
  { subst selection. apply Forall_forall. intros p Hp.
    apply list_elem_of_fmap in Hp as (q & -> & Hq). simpl.
    split; [| by eexists].
    assert (Ht : Forall (fun p => truthyPrice (p_spotPrice p) = true) (take 3 (p0 :: rest)))
      by (by apply Forall_take).
    rewrite Forall_forall in Ht. by apply Ht. }
  clearbody selection.
  destruct selection as [| s0 srest]; [simpl in Hlen; lia |].
  simpl in H. injection H as <- <-.
  split; [reflexivity |]. split; [reflexivity |].
  exists (s0 :: srest). split; [reflexivity | split; [exact Hlen | exact Hsel]].
Qed.

Lemma runExecution_hands_over_selection_twice_witness :
  exists selection,
    [withMetrics (SubscribeSamples.product1)
       (mkMetrics (155 # 10) (182 # 10) (60000 * (105 # 100))%Q (48 # 10) (21 # 10));
     withMetrics (SubscribeSamples.product1)
       (mkMetrics (155 # 10) (182 # 10) (60000 * (105 # 100))%Q (48 # 10) (21 # 10))]
    = selection ++ selection /\
    1 <= length selection <= 3 /\
    Forall (fun p => truthyPrice (p_spotPrice p) = true /\ is_Some (p_metrics p)) selection.
Proof.
  apply (runExecution_hands_over_selection_twice 30
           (mkWorld (Some []) ∅ (Some {[ "BTCUSDT"%string := 61000%Q ]})
              (Some [SubscribeSamples.product1]) 1000 "t" true)
           emptyState _ ∅).
  vm_compute. reflexivity.
Defined.

Lemma mainLoop_returns_below_cap (m : Z) (w : World) (st : SharedState.t) :
  (Z.of_nat (length (default [] (fetchPositions w))) < m)%Z ->
  fst (mainLoop (inject_Z m) w st) = Returned.
Proof.
  intros Hlt. unfold mainLoop.
  set (active := SharedState.positions (updateSpotBalances w (updatePositions w st))).
  assert (Hlen : length active = length (default [] (fetchPositions w))).
  { subst active. simpl. by rewrite length_map. }
  assert (Hcap : capReached (inject_Z m) active = false).
  { destruct (capReached (inject_Z m) active) eqn:Hc; [| reflexivity].
    apply capReached_true in Hc. rewrite <- Zle_Qle in Hc. lia. }
  rewrite Hcap. rewrite Qfloor_Z.
  pose proof (hedgedCount_le_length active) as Hh.
  replace (m <=? Z.of_nat (hedgedCount active))%Z with false
    by (symmetry; apply Z.leb_gt; lia).
  reflexivity.
Qed.

(** X21.  With an integer position cap, how a cycle ends depends only on
    how many positions the exchange reports: [process.exit(0)] for the
    position cap when they are at least the cap, a normal return when they
    are fewer, whatever the ledger says about hedges. *)
Theorem mainLoop_outcome_by_position_count :
  forall (m : Z) (w : World) (st : SharedState.t),
    let reported := Z.of_nat (length (default [] (fetchPositions w))) in
    ((m <= reported)%Z ->
     fst (mainLoop (inject_Z m) w st) = ProcessExit 0 MaxPositionsReached) /\
    ((reported < m)%Z -> fst (mainLoop (inject_Z m) w st) = Returned).
Proof.
  intros m w st reported. split; [| apply mainLoop_returns_below_cap].
  intros Hle. unfold mainLoop.
  set (active := SharedState.positions (updateSpotBalances w (updatePositions w st))).
  assert (Hlen : length active = length (default [] (fetchPositions w))).
  { subst active. simpl. by rewrite length_map. }
  assert (Hcap : capReached (inject_Z m) active = true).
  { apply capReached_true. rewrite <- Zle_Qle. subst reported. lia. }
  by rewrite Hcap.
Qed.

Lemma mainLoop_outcome_by_position_count_witness :
  fst (mainLoop (inject_Z 30) (worldWith 31) (hedgedState 2))
    = ProcessExit 0 MaxPositionsReached /\
  fst (mainLoop (inject_Z 30) (worldWith 4) (hedgedState 2)) = Returned.
Proof.
  split.
  - apply (mainLoop_outcome_by_position_count 30 (worldWith 31) (hedgedState 2)).
    vm_compute. discriminate.
  - apply (mainLoop_outcome_by_position_count 30 (worldWith 4) (hedgedState 2)).
    vm_compute. reflexivity.
Defined.

Lemma runSequence_unfold task rest c :
  runSequence (task :: rest) c
  = (fst (safeRun task c) :: fst (runSequence rest (snd (safeRun task c))),
     snd (runSequence rest (snd (safeRun task c)))).
Proof.
  simpl. destruct (safeRun task c) as [r c1]. simpl.
  by destruct (runSequence rest c1).
Qed.

(** X20.  Invocations that do not overlap are never skipped: starting with
    the lock free, and with tasks that resolve or reject (none ends the
    process), every invocation of a sequence runs its task, and the lock is
    free again at the end. *)
Theorem safeRun_sequence_never_skips :
  forall (tasks : list Task) (c : Cron),
    cronLock c = false ->
    (forall task c0 code, In task tasks -> fst (task c0) <> Exit code) ->
    length (fst (runSequence tasks c)) = length tasks /\
    Forall (fun r => r <> Skipped) (fst (runSequence tasks c)) /\
    cronLock (snd (runSequence tasks c)) = false.
Proof.
  induction tasks as [| task rest IH]; intros c Hl Hne.
  - simpl. repeat split; [constructor | exact Hl].
  - rewrite runSequence_unfold. simpl fst. simpl snd.
    assert (Hrun : fst (safeRun task c) <> Skipped /\ cronLock (snd (safeRun task c)) = false).
    { unfold safeRun. rewrite Hl.
      pose proof (Hne task (setLock true c)) as Hexit.
      destruct (task (setLock true c)) as [[| message | code] c'].
      - by split.
      - by split.
      - exfalso. apply (Hexit code); [by left | reflexivity]. }
    destruct Hrun as [Hr Hfree].
    destruct (IH (snd (safeRun task c)) Hfree) as (Hlen & Hall & Hend).
    { intros t c0 code Hin. apply Hne. by right. }
    simpl. repeat split; [by rewrite Hlen | by constructor | exact Hend].
Qed.

Lemma safeRun_sequence_never_skips_witness :
  Forall (fun r => r <> Skipped)
    (fst (runSequence [mainLoopTask 30 (worldWith 3);
                       (fun c => (Rejected "network down", c))] idle)) /\
  cronLock (snd (runSequence [mainLoopTask 30 (worldWith 3);
                              (fun c => (Rejected "network down", c))] idle)) = false.
Proof.
  destruct (safeRun_sequence_never_skips
              [mainLoopTask 30 (worldWith 3); (fun c => (Rejected "network down", c))] idle)
    as (_ & H1 & H2).
  - reflexivity.
  - intros task c0 code [<- | [<- | []]].
    + unfold mainLoopTask.
      assert (H : fst (mainLoop (inject_Z 30) (worldWith 3) (shared c0)) = Returned)
        by (apply mainLoop_returns_below_cap; vm_compute; reflexivity).
      change (inject_Z 30) with 30%Q in H.
      destruct (mainLoop 30 (worldWith 3) (shared c0)) as [o s]. simpl in H. subst o.
      discriminate.
    + discriminate.
  - split; [exact H1 | exact H2].
Defined.

End IndexExtras.

Section SubscribeFacts.
Import Subscribe SubscribeSamples.

Example includes_APY : includes "APY" "The APY has changed" = true.
Proof. reflexivity. Qed.

Example includes_no_APY : includes "APY" "Insufficient balance" = false.
Proof. reflexivity. Qed.

Example subscribe_accepted :
  subscribeToProduct 1 accepted 0 moduleScope product1 100
  = Some (Return true, None, [PostSubscribe "1001" "77"]).
Proof. vm_compute. reflexivity. Qed.

Example subscribe_refused :
  subscribeToProduct 1 refused 0 moduleScope product1 100
  = Some (Return false, None, [PostSubscribe "1001" "77"]).
Proof. vm_compute. reflexivity. Qed.

(** With a declared, empty set the retry is made, on the re-listed offer. *)
Example subscribe_retry_if_declared :
  subscribeToProduct 2 staleOnce 0 (Some ∅) product1 100
  = Some (Return true, Some {[ "1001"%string ]},
          [PostSubscribe "1001" "77"; FetchByMeta PUT "BTC" "USDT";
           PostSubscribe "1002" "78"]).
Proof. vm_compute. reflexivity. Qed.

(** Even then the retry is not bounded by one: a retried offer that is
    itself rejected as stale is retried under its own id.  Here the call is
    still retrying after four subscriptions. *)
Example subscribe_retry_chain_if_declared :
  subscribeToProduct 4 alwaysStale 0 (Some ∅) product1 100 = None /\
  (snd <$> subscribeToProduct 5 alwaysStale 0 (Some ∅) product1 100) = None.
Proof. vm_compute. split; reflexivity. Qed.

End SubscribeFacts.

Section SubscribeClaims.
Import Subscribe SubscribeSamples.

(** Whatever the offer and the exchange, a stale-APY rejection makes the
    call throw as soon as it reads [retriedProducts], before any refetch. *)
Lemma subscribeToProduct_apy_rejection_throws
    (fuel : nat) (w : World) (sent : nat) (product : Product) (amount : Q)
    (error : ApiError) :
  postSubscribe w sent product amount = Some error ->
  isApyRejection error = true ->
  subscribeToProduct (S fuel) w sent moduleScope product amount
  = Some (Throw (ReferenceError "retriedProducts"), moduleScope,
          [PostSubscribe (p_id product) (p_orderId product)]).
Proof. intros Hpost Hapy. simpl. by rewrite Hpost, Hapy. Qed.

(** C7 (code defect).  An offer rejected with code -9000 and a message
    naming the APY, while a matching re-listed offer with a higher APR is
    available: the call does not retry and does not return false; it
    throws a ReferenceError, and the only request sent is the rejected
    subscription. *)
Theorem subscribeToProduct_stale_apy_throws :
  postSubscribe staleOnce 0 product1 100 = Some staleApy /\
  isApyRejection staleApy = true /\
  List.find (matches product1) (fetchDualProductByMeta staleOnce 1 PUT "BTC" "USDT")
    = Some product1' /\
  forall fuel,
    subscribeToProduct (S fuel) staleOnce 0 moduleScope product1 100
    = Some (Throw (ReferenceError "retriedProducts"), moduleScope,
            [PostSubscribe "1001" "77"]).
Proof.
  split; [reflexivity |]. split; [reflexivity |]. split; [vm_compute; reflexivity |].
  intros fuel.
  apply (subscribeToProduct_apy_rejection_throws fuel staleOnce 0 product1 100 staleApy);
    reflexivity.
Qed.

End SubscribeClaims.

Section SubscribeExtras.
Import Subscribe SubscribeObs SubscribeSamples.





End SubscribeExtras.

Section FetchPositionsExtras.
Import FetchPositions.

Lemma fetchPages_collect (getPage : nat -> option (list RawPosition))
    (lastPage : list RawPosition) :
  length lastPage < 100 ->
  forall (fullPages : list (list RawPosition)) (fuel pageIndex : nat)
         (allPositions : list RawPosition),
    (forall j p, fullPages !! j = Some p ->
                 getPage (pageIndex + j) = Some p /\ 100 <= length p) ->
    getPage (pageIndex + length fullPages) = Some lastPage ->
    length fullPages < fuel ->
    fetchPages fuel getPage pageIndex allPositions
    = Some (Some (allPositions
                  ++ List.filter isPurchased (concat (fullPages ++ [lastPage])))).
Proof.
  intros Hshort.
  induction fullPages as [| p rest IH]; intros fuel pageIndex allPositions Hfull Hlast Hfuel.
  - destruct fuel as [| fuel]; [simpl in Hfuel; lia |].
    simpl in *. rewrite Nat.add_0_r in Hlast. rewrite Hlast.
    rewrite app_nil_r.
    destruct (Nat.eqb_spec (length lastPage) 0) as [Hz | Hnz].
    + destruct lastPage; [| discriminate]. simpl. by rewrite app_nil_r.
    + replace (length lastPage <? 100) with true
        by (symmetry; apply Nat.ltb_lt; exact Hshort).
      reflexivity.
  - destruct fuel as [| fuel]; [simpl in Hfuel; lia |].
    destruct (Hfull 0 p eq_refl) as [Hp Hlen]. rewrite Nat.add_0_r in Hp.
    simpl. rewrite Hp.
    replace (length p =? 0) with false by (symmetry; apply Nat.eqb_neq; lia).
    replace (length p <? 100) with false by (symmetry; apply Nat.ltb_ge; exact Hlen).
    rewrite (IH fuel (S pageIndex)).
    + rewrite List.filter_app. by rewrite app_assoc.
    + intros j q Hq. replace (S pageIndex + j) with (pageIndex + S j) by lia.
      by apply Hfull.
    + replace (S pageIndex + length rest) with (pageIndex + length (p :: rest))
        by (simpl; lia).
      exact Hlast.
    + simpl in Hfuel. lia.
Qed.

Lemma fetchPages_failure (getPage : nat -> option (list RawPosition)) :
  forall (fullPages : list (list RawPosition)) (fuel pageIndex : nat)
         (allPositions : list RawPosition),
    (forall j p, fullPages !! j = Some p ->
                 getPage (pageIndex + j) = Some p /\ 100 <= length p) ->
    getPage (pageIndex + length fullPages) = None ->
    length fullPages < fuel ->
    fetchPages fuel getPage pageIndex allPositions = Some None.
Proof.
  induction fullPages as [| p rest IH]; intros fuel pageIndex allPositions Hfull Hfail Hfuel.
  - destruct fuel as [| fuel]; [simpl in Hfuel; lia |].
    simpl in *. rewrite Nat.add_0_r in Hfail. by rewrite Hfail.
  - destruct fuel as [| fuel]; [simpl in Hfuel; lia |].
    destruct (Hfull 0 p eq_refl) as [Hp Hlen]. rewrite Nat.add_0_r in Hp.
    simpl. rewrite Hp.
    replace (length p =? 0) with false by (symmetry; apply Nat.eqb_neq; lia).
    replace (length p <? 100) with false by (symmetry; apply Nat.ltb_ge; exact Hlen).
    apply IH.
    + intros j q Hq. replace (S pageIndex + j) with (pageIndex + S j) by lia.
      by apply Hfull.
    + replace (S pageIndex + length rest) with (pageIndex + length (p :: rest))
        by (simpl; lia).
      exact Hfail.
    + simpl in Hfuel. lia.
Qed.

(** X27.  [fetchPositions] reads pages 1, 2, ... while they are full (100
    entries or more) and stops at the first shorter page: it returns, in
    order, the entries of all those pages whose purchase status is
    PURCHASE_SUCCESS.  If instead the request after the full pages fails,
    it returns null, and what the earlier pages held is lost. *)
Theorem fetchPositions_pages :
  forall (getPage : nat -> option (list RawPosition))
         (fullPages : list (list RawPosition)) (fuel : nat),
    (forall j p, fullPages !! j = Some p ->
                 getPage (1 + j) = Some p /\ 100 <= length p) ->
    length fullPages < fuel ->
    (forall lastPage,
        getPage (1 + length fullPages) = Some lastPage -> length lastPage < 100 ->
        fetchPositions fuel getPage
        = Some (Some (List.filter isPurchased (concat (fullPages ++ [lastPage]))))) /\
    (getPage (1 + length fullPages) = None -> fetchPositions fuel getPage = Some None).
Proof.
  intros getPage fullPages fuel Hfull Hfuel. unfold fetchPositions. split.
  - intros lastPage Hlast Hshort.
    by rewrite (fetchPages_collect getPage lastPage Hshort fullPages fuel 1 []).
  - intros Hfail. by apply (fetchPages_failure getPage fullPages).
Qed.

End FetchPositionsExtras.

Section FetchExtrasWitnesses.
Import FetchPositions FetchSamples FetchSpotBalances.

Lemma fetchPositions_pages_witness :
  fetchPositions 5 twoPages
    = Some (Some (List.filter isPurchased (concat ([fullPage] ++ [[pending; purchased]])))) /\
  fetchPositions 5 secondPageFails = Some None.
Proof.
  split.
  - apply (fetchPositions_pages twoPages [fullPage] 5).
    + intros [| j] p Hp; [| discriminate]. injection Hp as <-.
      split; [reflexivity | vm_compute; lia].
    + simpl. lia.
    + reflexivity.
    + simpl. lia.
  - apply (fetchPositions_pages secondPageFails [fullPage] 5).
    + intros [| j] p Hp; [| discriminate]. injection Hp as <-.
      split; [reflexivity | vm_compute; lia].
    + simpl. lia.
    + reflexivity.
Defined.

Example fetchPositions_two_pages_count :
  match fetchPositions 5 twoPages with
  | Some (Some l) => length l
  | _ => 0
  end = 100.
Proof. vm_compute. reflexivity. Qed.

Lemma balances_fold (l : list (string * Q)) :
  forall (m : gmap string Q) asset,
    (forall free, m !! asset = Some free -> (0 < free)%Q) ->
    (forall free,
        foldl (fun m balance =>
                 if Qlt_le_dec 0 (snd balance)
                 then <[fst balance := snd balance]> m else m) m l !! asset = Some free ->
        (0 < free)%Q /\ (m !! asset = Some free \/ In (asset, free) l)) /\
    (is_Some (foldl (fun m balance =>
                       if Qlt_le_dec 0 (snd balance)
                       then <[fst balance := snd balance]> m else m) m l !! asset)
     <-> is_Some (m !! asset) \/ exists free, In (asset, free) l /\ (0 < free)%Q).
Proof.
  induction l as [| [a f] l IH]; intros m asset Hm; simpl.
  - split.
    + intros free H. split; [by apply Hm | by left].
    + split; [by left | intros [H | (free & [] & _)]; exact H].
  - set (m' := if Qlt_le_dec 0 f then <[a := f]> m else m).
    assert (Hm' : forall free, m' !! asset = Some free -> (0 < free)%Q).
    { intros free. subst m'. destruct (Qlt_le_dec 0 f) as [Hpos | Hneg]; [| apply Hm].
      destruct (decide (a = asset)) as [-> | Hne].
      - rewrite lookup_insert_eq. by intros [= <-].
      - rewrite lookup_insert_ne by done. apply Hm. }
    destruct (IH m' asset Hm') as [IH1 IH2]. split.
    + intros free H. destruct (IH1 free H) as [Hpos [Hin | Hin]].
      * split; [exact Hpos |]. subst m'.
        destruct (Qlt_le_dec 0 f) as [Hf | Hf]; [| by left].
        destruct (decide (a = asset)) as [-> | Hne].
        -- rewrite lookup_insert_eq in Hin. injection Hin as <-. right. by left.
        -- rewrite lookup_insert_ne in Hin by done. by left.
      * split; [exact Hpos | right; by right].
    + rewrite IH2. subst m'. split.
      * intros [H | (free & Hin & Hpos)]; [| right; exists free; by split; [right |]].
        destruct (Qlt_le_dec 0 f) as [Hf | Hf]; [| by left].
        destruct (decide (a = asset)) as [-> | Hne].
        -- right. exists f. split; [by left | exact Hf].
        -- rewrite lookup_insert_ne in H by done. by left.
      * intros [H | (free & [Heq | Hin] & Hpos)].
        -- left. destruct (Qlt_le_dec 0 f) as [Hf | Hf]; [| exact H].
           destruct (decide (a = asset)) as [-> | Hne].
           ++ rewrite lookup_insert_eq. by eexists.
           ++ by rewrite lookup_insert_ne.
        -- injection Heq as -> ->. left.
           destruct (Qlt_le_dec 0 free) as [Hf | Hf]; [| lra].
           rewrite lookup_insert_eq. by eexists.
        -- right. exists free. by split.
Qed.

(** X28.  The balance map of [fetchSpotBalances] holds positive amounts
    only: an asset is in it exactly when the account lists it with a free
    amount above zero, and the amount recorded is one the account lists; a
    failed request gives the empty map. *)
Theorem fetchSpotBalances_positive_only :
  forall (response : option (list (string * Q))) (asset : string),
    (forall free, fetchSpotBalances response !! asset = Some free ->
                  (0 < free)%Q /\ In (asset, free) (default [] response)) /\
    (is_Some (fetchSpotBalances response !! asset)
     <-> exists free, In (asset, free) (default [] response) /\ (0 < free)%Q) /\
    fetchSpotBalances None = ∅.
Proof.
  intros response asset. split; [| split; [| reflexivity]].
  - intros free H. destruct response as [l |]; simpl in *.
    + destruct (balances_fold l ∅ asset) as [H1 _].
      { intros f Hf. by rewrite lookup_empty in Hf. }
      destruct (H1 free H) as [Hpos [Hempty | Hin]]; [by rewrite lookup_empty in Hempty |].
      by split.
    + by rewrite lookup_empty in H.
  - destruct response as [l |]; simpl.
    + destruct (balances_fold l ∅ asset) as [_ H2].
      { intros f Hf. by rewrite lookup_empty in Hf. }
      rewrite H2, lookup_empty. split; [intros [[x Hx] | H]; [discriminate | exact H] | by right].
    + rewrite lookup_empty. split; [intros [x Hx]; discriminate | intros (f & [] & _)].
Qed.

Lemma fetchSpotBalances_positive_only_witness :
  is_Some (fetchSpotBalances
             (Some [("BTC"%string, 0%Q); ("USDT"%string, 250%Q); ("BTC"%string, (1 # 2)%Q)])
           !! "BTC"%string) /\
  ~ is_Some (fetchSpotBalances (Some [("ETH"%string, 0%Q)]) !! "ETH"%string).
Proof.
  split.
  - apply (fetchSpotBalances_positive_only
             (Some [("BTC"%string, 0%Q); ("USDT"%string, 250%Q); ("BTC"%string, (1 # 2)%Q)])
             "BTC").
    exists (1 # 2)%Q. split; [simpl; tauto | reflexivity].
  - intros H.
    apply (fetchSpotBalances_positive_only (Some [("ETH"%string, 0%Q)]) "ETH") in H
      as (free & Hin & Hpos).
    simpl in Hin. destruct Hin as [[= <-] | []]. discriminate.
Defined.

End FetchExtrasWitnesses.

Section ExecuteFacts.
Import Execute ExecuteSamples.

(** With the shipped allocation a PUT is subscribed with 500 of the
    stablecoin (here as the fraction 10000/20). *)
Example execute_put_accepted :
  execute 1 config (world SubscribeSamples.accepted) Subscribe.moduleScope
    [SubscribeSamples.product1] false funded
  = Some (Completed (subtract (initialBalances config) "USDT" (10000 # 20)), None,
          [EvSubscribe (Subscribe.PostSubscribe "1001" "77")]).
Proof. vm_compute. reflexivity. Qed.

(** A CALL books the subscription on the invested coin, which the
    balances object does not have: the entry becomes NaN. *)
Example execute_call_accepted :
  execute 1 config (world SubscribeSamples.accepted) Subscribe.moduleScope
    [callProduct] false funded
  = Some (Completed (<[ "BTC"%string := NaN ]> (initialBalances config)), None,
          [EvSubscribe (Subscribe.PostSubscribe "3001" "90")]).
Proof. vm_compute. reflexivity. Qed.

(** Short of funds and with every borrow rejected, nothing is subscribed. *)
Example execute_put_unfunded :
  execute 1 config (world SubscribeSamples.accepted) Subscribe.moduleScope
    [SubscribeSamples.product1] false ∅
  = Some (Completed (initialBalances config), None,
          [EvBorrow (Borrow.mkBorrowParams "USDT" (10000 # 20) "BTC"
                       (Borrow.toFixed8 ((10000 # 20) * 1 / (75 # 100) / 60000)))]).
Proof. vm_compute. reflexivity. Qed.

End ExecuteFacts.

Section ExecuteExtras.
Import Execute ExecuteSamples.




(** Mock mode does borrow: short of funds, the borrow request goes out. *)
Example execute_mock_borrows :
  snd <$> execute 0 config (world SubscribeSamples.accepted) Subscribe.moduleScope
            [SubscribeSamples.product1] true ∅
  = Some [EvBorrow (Borrow.mkBorrowParams "USDT" (10000 # 20) "BTC"
                      (Borrow.toFixed8 ((10000 # 20) * 1 / (75 # 100) / 60000)))].
Proof. vm_compute. reflexivity. Qed.

(** X30.  A stale-APY rejection of one subscription ends the whole
    [execute] call: for a funded PUT on an active pair at the head of the
    list, the ReferenceError thrown by [subscribeToProduct] is not caught,
    the call fails after that one request, and the products after it are
    never looked at. *)
Theorem execute_fails_on_stale_rejection :
  forall (fuel : nat) (config : Config) (w : World) (product : Product)
         (rest : list Product) (spotBalances : gmap string Q) (coinConfig : AssetConfig)
         (error : Subscribe.ApiError),
    let putAmount :=
      ConfigMore.ALLOCATION_ALGORITHMS.putAllocation
        (ConfigMore.ALLOCATION_ALGORITHMS.calculateAllocation (PUT_CALL_BALANCE config)
           (INVESTMENT_AMOUNT config * ALLOCATION_FRACTION config)%Q) in
    p_optionType product = PUT ->
    isStable (p_investCoin product) = true ->
    SUPPORTED_ASSETS config !! (p_exercisedCoin product +:+ p_investCoin product)
      = Some coinConfig ->
    active coinConfig = true ->
    (1 <= putAmount)%Q ->
    (putAmount <= default 0%Q (spotBalances !! p_investCoin product))%Q ->
    Subscribe.postSubscribe (exchange w 0) 0 product putAmount = Some error ->
    Subscribe.isApyRejection error = true ->
    execute (S fuel) config w Subscribe.moduleScope (product :: rest) false spotBalances
    = Some (Failed (Subscribe.ReferenceError "retriedProducts"), Subscribe.moduleScope,
            [EvSubscribe (Subscribe.PostSubscribe (p_id product) (p_orderId product))]).
Proof.
  intros fuel config w product rest spotBalances coinConfig error putAmount
    Hput Hstable Hcfg Hactive Hamount Hfunded Hpost Hapy.
  unfold execute. cbn [executeLoop]. unfold executeProduct.
  rewrite Hstable, Hcfg, Hactive, Hput. cbn [negb]. fold putAmount.
  replace (Qle_bool 1 putAmount) with true by (symmetry; by apply Qle_bool_iff).
  unfold fundAndSubscribe.
  destruct (Qlt_le_dec (default 0%Q (spotBalances !! p_investCoin product)) putAmount)
    as [Hlt | _]; [lra |].
  cbn [negb].
  rewrite (subscribeToProduct_apy_rejection_throws fuel (exchange w 0) 0 product putAmount
             error Hpost Hapy).
  reflexivity.
Qed.

Lemma execute_fails_on_stale_rejection_witness :
  execute 2 config (world SubscribeSamples.staleOnce) Subscribe.moduleScope
    [SubscribeSamples.product1; callProduct] false funded
  = Some (Failed (Subscribe.ReferenceError "retriedProducts"), Subscribe.moduleScope,
          [EvSubscribe (Subscribe.PostSubscribe "1001" "77")]).
Proof.
  apply (execute_fails_on_stale_rejection 1 config (world SubscribeSamples.staleOnce)
           SubscribeSamples.product1 [callProduct] funded (mkAssetConfig true 1 5 100)
           SubscribeSamples.staleApy); try reflexivity.
  - vm_compute. discriminate.
  - vm_compute. discriminate.
Defined.

End ExecuteExtras.
